(** * A shallow embedding of git-all's parallel runner and output formatters

    Rust strings are modelled as [string], a sequence of bytes (the 8-bit
    [ascii] of the Standard Library) holding the UTF-8 encoding, so Rust's
    byte indices ([str::find], slicing, [len()]) are positions here.  The
    formatters that look at [chars()] are read on ASCII text, where a
    character is one byte; the column layout, which mixes byte lengths with
    character counts, counts characters as UTF-8 code points
    ([Layout.char_count]).  A Rust panic (an out-of-range slice, say) is
    modelled as [None]. *)

From Stdlib Require Import String Ascii List Arith ZArith Lia Bool.
From stdpp Require Import base list.
Import ListNotations.

Local Open Scope string_scope.

(** ** Rust [str] operations used by the formatters *)
Module RStr.

Definition sapp (a b : string) : string := String.append a b.

(** [s.starts_with(p)] *)
Definition starts_with (s p : string) : bool := String.prefix p s.

(** [s.find(p)]: byte index of the first occurrence. *)
Definition find (s p : string) : option nat := String.index 0 p s.

(** [s.contains(p)] *)
Definition contains (s p : string) : bool :=
  match find s p with Some _ => true | None => false end.

(** [&s[a..b]]; panics unless [a <= b <= s.len()]. *)
Definition slice (s : string) (a b : nat) : option string :=
  if Nat.leb a b && Nat.leb b (String.length s) then Some (substring a (b - a) s)
  else None.

(** [&s[a..]] *)
Definition slice_from (s : string) (a : nat) : option string :=
  slice s a (String.length s).

(** [&s[..b]] *)
Definition slice_to (s : string) (b : nat) : option string := slice s 0 b.

(** [s.strip_prefix(p)] *)
Definition strip_prefix (s p : string) : option string :=
  if starts_with s p then Some (substring (String.length p) (String.length s - String.length p) s)
  else None.

(** [char::is_whitespace] restricted to ASCII. *)
Definition is_ws (c : ascii) : bool :=
  let n := nat_of_ascii c in
  Nat.eqb n 32 || (Nat.leb 9 n && Nat.leb n 13).

Fixpoint trim_start (s : string) : string :=
  match s with
  | EmptyString => EmptyString
  | String c r => if is_ws c then trim_start r else s
  end.

Definition rev_str (s : string) : string :=
  string_of_list_ascii (rev (list_ascii_of_string s)).

(** [s.trim()] *)
Definition trim (s : string) : string :=
  rev_str (trim_start (rev_str (trim_start s))).

(** [l.trim().is_empty()] *)
Definition is_blank (s : string) : bool := String.eqb (trim s) "".

Definition nl : ascii := ascii_of_nat 10.
Definition cr : ascii := ascii_of_nat 13.

(** A line of [split_inclusive('\n')] that ended in a newline loses a
    trailing carriage return too. *)
Definition strip_cr (s : string) : string :=
  match rev (list_ascii_of_string s) with
  | c :: r => if Ascii.eqb c cr then string_of_list_ascii (rev r) else s
  | [] => s
  end.

Fixpoint lines_aux (s cur : string) : list string :=
  match s with
  | EmptyString => if String.eqb cur "" then [] else [cur]
  | String c r =>
      if Ascii.eqb c nl then strip_cr cur :: lines_aux r ""
      else lines_aux r (sapp cur (String c EmptyString))
  end.

(** [s.lines()]: [split_inclusive('\n')] with the line ending stripped. *)
Definition lines (s : string) : list string := lines_aux s "".

Fixpoint split_aux (sep : ascii) (s cur : string) : list string :=
  match s with
  | EmptyString => [cur]
  | String c r =>
      if Ascii.eqb c sep then cur :: split_aux sep r ""
      else split_aux sep r (sapp cur (String c EmptyString))
  end.

(** [s.split(sep)] for a [char] separator. *)
Definition split (sep : ascii) (s : string) : list string := split_aux sep s "".

(** [parts.join(sep)] *)
Fixpoint join (sep : string) (l : list string) : string :=
  match l with
  | [] => ""
  | [x] => x
  | x :: r => sapp x (sapp sep (join sep r))
  end.

(** [v.is_empty()] *)
Definition is_empty {A} (l : list A) : bool :=
  match l with [] => true | _ => false end.

(** [iter.find(p)] *)
Fixpoint find_first {A} (p : A -> bool) (l : list A) : option A :=
  match l with
  | [] => None
  | x :: r => if p x then Some x else find_first p r
  end.

Definition unwrap_or {A} (o : option A) (d : A) : A :=
  match o with Some x => x | None => d end.

(** [format!("{}", n)] for an unsigned integer. *)
Fixpoint digits_aux (fuel n : nat) (acc : string) : string :=
  match fuel with
  | 0 => acc
  | S f =>
      let d := String (ascii_of_nat (48 + n mod 10)) acc in
      if Nat.ltb n 10 then d else digits_aux f (n / 10) d
  end.

Definition fmt_nat (n : nat) : string := digits_aux (S n) n "".

(** [usize::from_str]: an optional '+', then one or more decimal digits,
    with no value above [usize::MAX] (64-bit target). *)
Fixpoint digits_value (s : string) (acc : N) : option N :=
  match s with
  | EmptyString => Some acc
  | String c r =>
      let n := nat_of_ascii c in
      if Nat.leb 48 n && Nat.leb n 57 then
        let acc' := (acc * 10 + N.of_nat (n - 48))%N in
        if N.ltb acc' (2 ^ 64)%N then digits_value r acc' else None
      else None
  end.

Definition parse_usize (s : string) : option N :=
  let body := match s with
              | String "+"%char r => r
              | _ => s
              end in
  match body with
  | EmptyString => None
  | _ => digits_value body 0
  end.

End RStr.

(** ** Rust's [i32]

    An integer local with no other type constraint ([let mut n = 0], a
    [(0, 0)] accumulator) is an [i32].  Its arithmetic is modelled as in a
    release build, where overflow wraps around; a debug build panics
    instead. *)
Module I32.

(** The [i32] with the same 32 low bits as [z]. *)
Definition wrap (z : Z) : Z := ((z + 2 ^ 31) mod 2 ^ 32 - 2 ^ 31)%Z.

(** [x + y] on [i32]. *)
Definition add (x y : Z) : Z := wrap (x + y).

(** The value of a local that starts at [0] and took [+= 1] [k] times. *)
Definition of_count (k : nat) : Z := Nat.iter k (fun v => add v 1) 0%Z.

(** [format!("{}", v)] *)
Definition fmt (v : Z) : string :=
  if Z.ltb v 0 then RStr.sapp "-" (RStr.fmt_nat (Z.to_nat (- v)))
  else RStr.fmt_nat (Z.to_nat v).

End I32.

(** ** Process output ([std::process::Output]) and formatter results *)

Record Output := mkOutput {
  success : bool;     (* [output.status.success()] *)
  stdout : string;    (* [String::from_utf8_lossy(&output.stdout)] *)
  stderr : string;
}.

(** [runner::FormattedResult] *)
Record FormattedResult := mkFormatted {
  fr_branch : string;
  fr_message : string;
}.

(** [FormattedResult::message_only]: used for the formatters (fetch, pull)
    that produce only a message. *)
Definition message_only (m : string) : FormattedResult := mkFormatted "" m.

(** ** commands/status.rs *)
Module Status.
Import RStr.

(** [parse_branch_line]; [None] is a panic. *)
Definition parse_branch_line (line : string) : option (string * N * N) :=
  if negb (starts_with line "## ") then Some ("", 0%N, 0%N) else
  match slice_from line 3 with
  | None => None
  | Some content =>
  if starts_with content "HEAD (no branch)" then Some ("HEAD (detached)", 0%N, 0%N) else
  if starts_with content "No commits yet on " then
    option_map (fun b => (b, 0%N, 0%N)) (slice_from content 18) else
  if starts_with content "Initial commit on " then
    option_map (fun b => (b, 0%N, 0%N)) (slice_from content 18) else
  let parts :=
    match find content "..." with
    | Some dots_pos =>
        match slice_to content dots_pos, slice_from content (dots_pos + 3) with
        | Some bp, Some ti => Some (bp, ti)
        | _, _ => None
        end
    | None => Some (trim content, "")
    end in
  match parts with
  | None => None
  | Some (branch, tracking_info) =>
    match find tracking_info "[" with
    | Some bracket_start =>
        match find tracking_info "]" with
        | Some bracket_end =>
            match slice tracking_info (bracket_start + 1) bracket_end with
            | None => None
            | Some info =>
                let '(ahead, behind) :=
                  fold_left
                    (fun '(ahead, behind) part =>
                       let part := trim part in
                       match strip_prefix part "ahead " with
                       | Some n => (unwrap_or (parse_usize n) 0%N, behind)
                       | None =>
                           match strip_prefix part "behind " with
                           | Some n => (ahead, unwrap_or (parse_usize n) 0%N)
                           | None => (ahead, behind)
                           end
                       end)
                    (split "," info) (0%N, 0%N) in
                Some (branch, ahead, behind)
            end
        | None => Some (branch, 0%N, 0%N)
        end
    | None => Some (branch, 0%N, 0%N)
    end
  end
  end.

(** The locals of the loop in [StatusFormatter::format].  [ahead] and
    [behind] are [usize]; the five file counters are [i32] locals that start
    at [0] and are only ever incremented by one, so each is recorded here as
    the number of increments it took, and the code reads its [i32] value
    [I32.of_count]. *)
Record Counters := mkCounters {
  branch : string;
  ahead : N;
  behind : N;
  modified : nat;
  added : nat;
  deleted : nat;
  untracked : nat;
  renamed : nat;
}.

Definition init : Counters := mkCounters "" 0 0 0 0 0 0 0.

Definition set_header (c : Counters) (b : string) (a bh : N) : Counters :=
  mkCounters b a bh (modified c) (added c) (deleted c) (untracked c) (renamed c).
Definition inc_modified (c : Counters) : Counters :=
  mkCounters (branch c) (ahead c) (behind c) (S (modified c)) (added c) (deleted c) (untracked c) (renamed c).
Definition inc_added (c : Counters) : Counters :=
  mkCounters (branch c) (ahead c) (behind c) (modified c) (S (added c)) (deleted c) (untracked c) (renamed c).
Definition inc_deleted (c : Counters) : Counters :=
  mkCounters (branch c) (ahead c) (behind c) (modified c) (added c) (S (deleted c)) (untracked c) (renamed c).
Definition inc_untracked (c : Counters) : Counters :=
  mkCounters (branch c) (ahead c) (behind c) (modified c) (added c) (deleted c) (S (untracked c)) (renamed c).
Definition inc_renamed (c : Counters) : Counters :=
  mkCounters (branch c) (ahead c) (behind c) (modified c) (added c) (deleted c) (untracked c) (S (renamed c)).

(** [line.chars().nth(i).unwrap_or(' ')] *)
Definition nth_char (line : string) (i : nat) : ascii :=
  match String.get i line with Some ch => ch | None => " "%char end.

(** One iteration of [for line in stdout.lines()] in [StatusFormatter::format]. *)
Definition line_step (c : Counters) (line : string) : option Counters :=
  if starts_with line "## " then
    match parse_branch_line line with
    | Some (b, a, bh) => Some (set_header c b a bh)
    | None => None
    end
  else if Nat.ltb (String.length line) 2 then Some c
  else
    let index_status := nth_char line 0 in
    let worktree_status := nth_char line 1 in
    if Ascii.eqb index_status "?" then Some (inc_untracked c)
    else
      let c :=
        if Ascii.eqb index_status "M" then inc_modified c
        else if Ascii.eqb index_status "A" then inc_added c
        else if Ascii.eqb index_status "D" then inc_deleted c
        else if Ascii.eqb index_status "R" then inc_renamed c
        else c in
      let c :=
        if Ascii.eqb index_status " " then
          if Ascii.eqb worktree_status "M" then inc_modified c
          else if Ascii.eqb worktree_status "D" then inc_deleted c
          else c
        else c in
      Some c.

Fixpoint count_lines (c : Counters) (ls : list string) : option Counters :=
  match ls with
  | [] => Some c
  | l :: r => match line_step c l with
              | Some c' => count_lines c' r
              | None => None
              end
  end.

Definition fmt_N (n : N) : string := fmt_nat (N.to_nat n).

(** The rendering at the end of [StatusFormatter::format]. *)
Definition render (c : Counters) : string :=
  let modified := I32.of_count (modified c) in
  let added := I32.of_count (added c) in
  let deleted := I32.of_count (deleted c) in
  let renamed := I32.of_count (renamed c) in
  let untracked := I32.of_count (untracked c) in
  let parts : list string := [] in
  let parts := if Z.ltb 0 modified then app parts [sapp (I32.fmt modified) " modified"] else parts in
  let parts := if Z.ltb 0 added then app parts [sapp (I32.fmt added) " added"] else parts in
  let parts := if Z.ltb 0 deleted then app parts [sapp (I32.fmt deleted) " deleted"] else parts in
  let parts := if Z.ltb 0 renamed then app parts [sapp (I32.fmt renamed) " renamed"] else parts in
  let parts := if Z.ltb 0 untracked then app parts [sapp (I32.fmt untracked) " untracked"] else parts in
  let has_file_changes := negb (is_empty parts) in
  let parts := if N.ltb 0 (ahead c) then app parts [sapp (fmt_N (ahead c)) " ahead"] else parts in
  let parts := if N.ltb 0 (behind c) then app parts [sapp (fmt_N (behind c)) " behind"] else parts in
  if is_empty parts then "clean"
  else if negb has_file_changes then sapp "clean, " (join ", " parts)
  else join ", " parts.

(** [StatusFormatter::format]; [None] is a panic. *)
Definition format (o : Output) : option FormattedResult :=
  if negb (success o) then
    Some (mkFormatted "" (unwrap_or (head (lines (stderr o))) "unknown error"))
  else
    match count_lines init (lines (stdout o)) with
    | Some c => Some (mkFormatted (branch c) (render c))
    | None => None
    end.

End Status.

(** ** Fetch: the two versions of [FetchFormatter::format] *)
Module Fetch.
Import RStr.

Definition plural (n : nat) (word suffix : string) : string :=
  sapp (fmt_nat n) (sapp " " (sapp word (if Nat.eqb n 1 then "" else suffix))).

Definition is_update (l : string) : bool := contains l "->" || contains l "[new".
Definition is_tag (l : string) : bool := contains l "[new tag]".

(** [format!("{} updated", parts.join(", "))] for the two counts of fit,
    which are [i32]. *)
Definition plural_i32 (n : Z) (word suffix : string) : string :=
  sapp (I32.fmt n) (sapp " " (sapp word (if Z.eqb n 1 then "" else suffix))).

Definition render_counts_i32 (branch_count tag_count : Z) : string :=
  let parts : list string := [] in
  let parts := if Z.ltb 0 branch_count then app parts [plural_i32 branch_count "branch" "es"] else parts in
  let parts := if Z.ltb 0 tag_count then app parts [plural_i32 tag_count "tag" "s"] else parts in
  sapp (join ", " parts) " updated".

(** fit-rust/src/commands/fetch.rs; the [(0, 0)] accumulator of the fold
    is a pair of [i32]. *)
Definition format_fit (o : Output) : string :=
  if negb (success o) then unwrap_or (head (lines (stderr o))) "unknown error" else
  let has_output :=
    existsb (fun l => negb (is_blank l)) (lines (stdout o))
    || existsb (fun l => negb (is_blank l) && negb (starts_with l "From")) (lines (stderr o)) in
  if negb has_output then "no new commits" else
  let '(branch_count, tag_count) :=
    fold_left (fun '(b, t) l => if is_tag l then (b, I32.add t 1) else (I32.add b 1, t))
              (List.filter is_update (lines (stdout o))) (0%Z, 0%Z) in
  if Z.ltb 0 branch_count || Z.ltb 0 tag_count then render_counts_i32 branch_count tag_count
  else "fetched".

(** rust/src/commands/fetch.rs *)
Definition format_all (o : Output) : string :=
  if negb (success o) then
    sapp "ERROR: " (unwrap_or (find_first (fun l => negb (is_blank l)) (lines (stderr o))) "unknown error")
  else
  let stdout_content := List.filter (fun l => negb (is_blank l)) (lines (stdout o)) in
  let stderr_content :=
    List.filter (fun l => negb (is_blank l) && negb (starts_with l "From")) (lines (stderr o)) in
  if is_empty stdout_content && is_empty stderr_content then "no new commits" else
  let updates := List.filter is_update (lines (stdout o)) in
  if negb (is_empty updates) then
    let branch_count := length (List.filter (fun l => negb (is_tag l)) updates) in
    let tag_count := length (List.filter is_tag updates) in
    let parts : list string := [] in
    let parts := if Nat.ltb 0 branch_count then app parts [plural branch_count "branch" "es"] else parts in
    let parts := if Nat.ltb 0 tag_count then app parts [plural tag_count "tag" "s"] else parts in
    if negb (is_empty parts) then sapp (join ", " parts) " updated" else "fetched"
  else "fetched".

End Fetch.

(** ** nit-rust/src/commands/pull.rs: [PullFormatter::format] *)
Module Pull.
Import RStr.

Definition format (o : Output) : string :=
  if negb (success o) then unwrap_or (head (lines (stderr o))) "unknown error" else
  if contains (stdout o) "Already up to date" then "Already up to date" else
  match find_first (fun l => contains l "files changed") (lines (stdout o)) with
  | Some summary_line => trim summary_line
  | None =>
  match find_first (fun l => contains l ".." || contains l "Updating") (lines (stdout o)) with
  | Some line => trim line
  | None =>
      trim (unwrap_or (find_first (fun l => negb (is_blank l))
                                  (app (lines (stdout o)) (lines (stderr o))))
                      "completed")
  end
  end.

End Pull.

(** ** rust/src/commands/passthrough.rs: [PassthroughFormatter::format] *)
Module Passthrough.
Import RStr.

Definition format (o : Output) : FormattedResult :=
  if negb (success o) then
    mkFormatted "" (sapp "ERROR: " (unwrap_or (find_first (fun l => negb (is_blank l)) (lines (stderr o))) "unknown error"))
  else
    mkFormatted ""
      (trim (unwrap_or (find_first (fun l => negb (is_blank l))
                                   (app (lines (stdout o)) (lines (stderr o))))
                       "ok")).

End Passthrough.

(** ** runner.rs: commands, their argument lists and the dry-run text *)
Module Runner.
Import RStr.

Inductive UrlScheme := Ssh | Https.

Record ExecutionContext := mkContext {
  dry_run : bool;
  url_scheme : option UrlScheme;
  max_connections : nat;
}.

(** [GitCommand] of rust/src/runner.rs *)
Record GitCommand := mkGitCommand {
  repo_path : string;
  global_args : list string;
  args : list string;
}.

Definition GitCommand_new (repo : string) (a : list string) : GitCommand :=
  mkGitCommand repo [] a.

(** The parts of [std::process::Command] the runner sets. *)
Record Command := mkCommand {
  program : string;
  cmd_args : list string;
  cmd_env : list (string * string);
}.

Definition Command_new (prog : string) : Command := mkCommand prog [] [].
Definition arg (c : Command) (a : string) : Command :=
  mkCommand (program c) (app (cmd_args c) [a]) (cmd_env c).
Definition args_ (c : Command) (l : list string) : Command :=
  mkCommand (program c) (app (cmd_args c) l) (cmd_env c).
Definition env (c : Command) (k v : string) : Command :=
  mkCommand (program c) (cmd_args c) (app (cmd_env c) [(k, v)]).

Definition ssh_rewrite : string := "url.git@github.com:.insteadOf=https://github.com/".
Definition https_rewrite : string := "url.https://github.com/.insteadOf=git@github.com:".

(** The command [GitCommand::spawn] starts (rust/src/runner.rs). *)
Definition spawn_command (g : GitCommand) (url_scheme : option UrlScheme) : Command :=
  let cmd := Command_new "git" in
  let cmd :=
    match url_scheme with
    | Some Ssh => arg (arg cmd "-c") ssh_rewrite
    | Some Https => arg (arg cmd "-c") https_rewrite
    | None => cmd
    end in
  let cmd := args_ cmd (global_args g) in
  env (args_ (arg (arg cmd "-C") (repo_path g)) (args g)) "GIT_TERMINAL_PROMPT" "0".

(** [GitCommand::spawn] of fit-rust/src/runner.rs, whose commands have no
    global arguments. *)
Definition spawn_command_fit (repo : string) (a : list string) (url_scheme : option UrlScheme) : Command :=
  let cmd := Command_new "git" in
  let cmd :=
    match url_scheme with
    | Some Ssh => arg (arg cmd "-c") ssh_rewrite
    | Some Https => arg (arg cmd "-c") https_rewrite
    | None => cmd
    end in
  env (args_ (arg (arg cmd "-C") repo) a) "GIT_TERMINAL_PROMPT" "0".

(** The argument vector of the spawned process. *)
Definition argv (c : Command) : list string := program c :: cmd_args c.

Definition dq : string := String (ascii_of_nat 34) EmptyString.
Definition quoted (s : string) : string := sapp dq (sapp s dq).

(** [GitCommand::command_string_with_scheme] *)
Definition command_string_with_scheme (g : GitCommand) (url_scheme : option UrlScheme) : string :=
  let scheme_args :=
    match url_scheme with
    | Some Ssh => sapp "-c " (sapp (quoted ssh_rewrite) " ")
    | Some Https => sapp "-c " (sapp (quoted https_rewrite) " ")
    | None => ""
    end in
  let global := if is_empty (global_args g) then "" else sapp (join " " (global_args g)) " " in
  sapp "git " (sapp scheme_args (sapp global (sapp "-C " (sapp (repo_path g) (sapp " " (join " " (args g))))))).

(** The observable effects of [run_parallel]: printed lines and spawned
    processes.  The live run is summarised per target by the two processes
    its worker spawns ([resolve_branch], then the command itself); their
    interleaving across workers is not modelled here. *)
Inductive Event := Print (line : string) | Spawn (argv : list string).

Definition resolve_branch_command (repo : string) : Command :=
  env (args_ (arg (arg (Command_new "git") "-C") repo) ["rev-parse"; "--abbrev-ref"; "HEAD"])
      "GIT_TERMINAL_PROMPT" "0".

Definition run_parallel_events (ctx : ExecutionContext) (repos : list string)
    (build_command : string -> GitCommand) : list Event :=
  let url_scheme := url_scheme ctx in
  if dry_run ctx then
    map (fun repo => Print (command_string_with_scheme (build_command repo) url_scheme)) repos
  else
    flat_map (fun repo =>
      [Spawn (argv (resolve_branch_command repo));
       Spawn (argv (spawn_command (build_command repo) url_scheme))]) repos.

Definition is_spawn (e : Event) : bool := match e with Spawn _ => true | Print _ => false end.

(** The command builder of [status::run]. *)
Definition status_build (extra_args : list string) (repo : string) : GitCommand :=
  mkGitCommand repo ["--no-optional-locks"] (app ["status"; "--porcelain"; "-b"] extra_args).

End Runner.

(** ** The ordered collector of [run_parallel] (rust/src/runner.rs)

    The receiving loop [for (idx, repo, branch, result) in rx] with its
    [results] slot vector and [next_to_print] cursor.  The payload [A] is the
    [(repo, branch, result)] triple a worker sends, and [print_line] the
    formatting done before [println!]. *)
Section Collector.
Variable A : Type.
Variable print_line : A -> string.

(** State: the slot vector, the cursor and the lines printed so far, each
    with the index of the target it was printed for. *)
Definition CState : Type := (list (option A) * nat * list (nat * string))%type.

(** The inner [while next_to_print < results.len() && results[next_to_print].is_some()]
    loop.  Each iteration advances the cursor, so [results.len() - next_to_print]
    iterations bound the loop and the fuel never runs out first. *)
Fixpoint drain (fuel : nat) (results : list (option A)) (next : nat)
    (out : list (nat * string)) : CState :=
  match fuel with
  | 0 => (results, next, out)
  | S f =>
      if Nat.ltb next (length results) then
        match results !! next with
        | Some (Some v) =>
            drain f (<[next := None]> results) (S next) (app out [(next, print_line v)])
        | _ => (results, next, out)
        end
      else (results, next, out)
  end.

(** One received message: [results[idx] = Some(...)] (a panic when [idx] is
    out of range), then the drain loop. *)
Definition receive (st : CState) (msg : nat * A) : option CState :=
  let '(results, next, out) := st in
  let '(idx, v) := msg in
  if Nat.ltb idx (length results) then
    let results := <[idx := Some v]> results in
    Some (drain (length results - next) results next out)
  else None.

Fixpoint collect_from (st : CState) (msgs : list (nat * A)) : option CState :=
  match msgs with
  | [] => Some st
  | m :: r => match receive st m with
              | Some st' => collect_from st' r
              | None => None
              end
  end.

(** The lines printed for [n] targets when the messages arrive in the order
    [msgs]. *)
Definition collect (n : nat) (msgs : list (nat * A)) : option (list (nat * string)) :=
  option_map (fun st : CState => let '(_, _, out) := st in out)
             (collect_from (replicate n None, 0, []) msgs).

End Collector.

Arguments drain {A} print_line fuel results next out.
Arguments receive {A} print_line st msg.
Arguments collect_from {A} print_line st msgs.
Arguments collect {A} print_line n msgs.

(** ** main.rs of git-all (src/rust) and of fit (src/fit-rust) *)
Module Main.
Import Runner.

Inductive Commands :=
| Pull (a : list string)
| Fetch (a : list string)
| Status (a : list string)
| Meta (a : list string)
| External (a : list string).

Record Cli := mkCli {
  cli_dry_run : bool;
  cli_ssh : bool;
  cli_https : bool;
  cli_workers : nat;
  cli_scan_depth : option nat;
  cli_command : option Commands;
}.

(** How the process ends: replaced by [git] (passthrough), an explicit
    [std::process::exit(code)], or [main] returning [Ok(())] (exit 0) or
    [Err(_)] (exit 1). *)
Inductive Outcome :=
| ExecGit
| Exit (code : nat)
| ReturnOk
| ReturnErr.

Definition exit_code (o : Outcome) : option nat :=
  match o with
  | ExecGit => None
  | Exit c => Some c
  | ReturnOk => Some 0
  | ReturnErr => Some 1
  end.

Definition is_meta_cmd (c : option Commands) : bool :=
  match c with Some (Meta _) => true | _ => false end.

Definition url_scheme_of (cli : Cli) : option UrlScheme :=
  if cli_ssh cli then Some Ssh else if cli_https cli then Some Https else None.

Definition no_repos_notice : string := "No git repositories found in current directory".

Definition dry_run_banner (tool version : string) : string :=
  RStr.sapp "[" (RStr.sapp tool (RStr.sapp " v" (RStr.sapp version
    "] Running in **dry-run mode**, no git commands will be executed. Planned git commands below."))).

(** [main] of git-all, with the lines it prints itself.  [version] is
    [CARGO_PKG_VERSION]; [meta_run] the lines printed by [meta::run];
    [is_meta] is [args.first() == "meta"], [inside] is
    [is_inside_git_repo()]; [discover] gives the result of [current_dir()]
    and [find_git_repos_in] for the scan depth ([None] for an error
    propagated by [?]); [run] is the command dispatch on the built context,
    with the lines it prints and how it ends. *)
Definition main_all (version : string) (meta_run : list string -> list string)
    (is_meta inside : bool) (cli : Cli)
    (discover : option nat -> option (list string))
    (run : ExecutionContext -> list string -> list string * Outcome) : list string * Outcome :=
  if negb is_meta && inside then ([], ExecGit) else
  match cli_command cli with
  | Some (Meta args) => (meta_run args, ReturnOk)
  | _ =>
    match discover (cli_scan_depth cli) with
    | None => ([], ReturnErr)
    | Some repos =>
        if RStr.is_empty repos then ([no_repos_notice], Exit 9)
        else
          let ctx := mkContext (cli_dry_run cli) (url_scheme_of cli) (cli_workers cli) in
          let banner := if cli_dry_run cli then [dry_run_banner "git-all" version] else [] in
          let '(out, r) := run ctx repos in (app banner out, r)
    end
  end.

(** [main] of fit: no repositories prints the notice and returns [Ok(())].
    fit has no [--scan-depth]: [discovered] is the result of
    [find_git_repos()]. *)
Definition main_fit (version : string) (meta_run : list string -> list string)
    (is_meta inside : bool) (cli : Cli)
    (discovered : option (list string))
    (run : ExecutionContext -> list string -> list string * Outcome) : list string * Outcome :=
  if negb is_meta && inside then ([], ExecGit) else
  match cli_command cli with
  | Some (Meta args) => (meta_run args, ReturnOk)
  | _ =>
    match discovered with
    | None => ([], ReturnErr)
    | Some repos =>
        if RStr.is_empty repos then ([no_repos_notice], ReturnOk)
        else
          let ctx := mkContext (cli_dry_run cli) (url_scheme_of cli) (cli_workers cli) in
          let banner := if cli_dry_run cli then [dry_run_banner "fit" version] else [] in
          let '(out, r) := run ctx repos in (app banner out, r)
    end
  end.

End Main.

(** * Proofs *)

(** ** The collector prints every target once, in index order *)
Section CollectorProofs.
Variable A : Type.
Variable print_line : A -> string.
Variable n : nat.

(** What holds of the collector state after the messages [pre] were
    received: slots hold exactly the received results not yet printed, and
    the printed lines are those of targets [0 .. next - 1], in order. *)
Definition inv (pre : list (nat * A)) (st : CState A) : Prop :=
  let '(results, next, out) := st in
  length results = n /\ next <= n /\
  (forall i v, results !! i = Some (Some v) -> next <= i /\ In (i, v) pre) /\
  (forall i v, In (i, v) pre -> next <= i -> results !! i = Some (Some v)) /\
  map fst out = seq 0 next /\
  (forall i l, In (i, l) out -> exists v, In (i, v) pre /\ l = print_line v).

(** The drain loop stopped: all printed, or the cursor's slot is empty. *)
Definition drained (st : CState A) : Prop :=
  let '(results, next, _) := st in
  next = n \/ forall v, results !! next <> Some (Some v).

Lemma drain_inv pre fuel :
  forall results next out,
  fuel = length results - next ->
  inv pre (results, next, out) ->
  inv pre (drain print_line fuel results next out) /\
  drained (drain print_line fuel results next out).
Proof.
  induction fuel as [|f IH]; intros results next out Hf Hinv.
  - simpl. split; [exact Hinv|].
    destruct Hinv as (Hlen & Hle & _). left. lia.
  - destruct Hinv as (Hlen & Hle & Hslot & Hpre & Hout & Hsrc).
    simpl. destruct (Nat.ltb_spec next (length results)) as [Hlt|Hge]; [|lia].
    destruct (results !! next) as [[v|]|] eqn:Hnext.
    + apply IH.
      * rewrite length_insert. lia.
      * destruct (Hslot next v Hnext) as [_ Hin].
        refine (conj _ (conj _ (conj _ (conj _ (conj _ _))))).
        -- rewrite length_insert. lia.
        -- lia.
        -- intros i w Hi.
           destruct (decide (i = next)) as [->|Hne].
           ++ rewrite list_lookup_insert_eq in Hi by lia. discriminate.
           ++ rewrite list_lookup_insert_ne in Hi by congruence.
              destruct (Hslot i w Hi). split; [lia|assumption].
        -- intros i w Hi Hlei.
           rewrite list_lookup_insert_ne by lia. apply Hpre; [exact Hi|lia].
        -- rewrite map_app, Hout, seq_S. reflexivity.
        -- intros i l Hi. apply in_app_or in Hi as [Hi|Hi].
           ++ exact (Hsrc i l Hi).
           ++ destruct Hi as [Hi|[]]. injection Hi as <- <-. eauto.
    + split; [repeat (split; [assumption|]); assumption|].
      right. intros v. rewrite Hnext. discriminate.
    + apply lookup_lt_is_Some_2 in Hlt. rewrite Hnext in Hlt.
      destruct Hlt as [? Hc]; discriminate.
Qed.

(** Targets before the cursor were all received. *)
Lemma printed_received pre results next out i :
  inv pre (results, next, out) -> i < next -> In i (map fst pre).
Proof.
  intros (_ & _ & _ & _ & Hout & Hsrc) Hi.
  assert (Hin : In i (map fst out)) by (rewrite Hout; apply in_seq; lia).
  apply in_map_iff in Hin as [[j l] [Hj Hjl]]. simpl in Hj; subst j.
  destruct (Hsrc i l Hjl) as [v [Hv _]].
  apply in_map_iff. exists (i, v). auto.
Qed.

Lemma receive_inv pre st idx v :
  inv pre st -> drained st ->
  ~ In idx (map fst pre) -> idx < n ->
  exists st', receive print_line st (idx, v) = Some st' /\
              inv (app pre [(idx, v)]) st' /\ drained st'.
Proof.
  destruct st as [[results next] out]. intros Hinv _ Hfresh Hidx.
  pose proof (printed_received pre results next out idx Hinv) as Hrec.
  destruct Hinv as (Hlen & Hle & Hslot & Hpre & Hout & Hsrc).
  simpl. destruct (Nat.ltb_spec idx (length results)) as [Hlt|Hge]; [|lia].
  eexists; split; [reflexivity|].
  apply drain_inv; [reflexivity|].
  refine (conj _ (conj _ (conj _ (conj _ (conj _ _))))).
  - rewrite length_insert. exact Hlen.
  - exact Hle.
  - intros i w Hi. destruct (decide (i = idx)) as [->|Hne].
    + rewrite list_lookup_insert_eq in Hi by lia. injection Hi as <-.
      split.
      * destruct (Nat.le_gt_cases next idx) as [H|H]; [exact H|].
        exfalso. exact (Hfresh (Hrec H)).
      * apply in_or_app. right. left. reflexivity.
    + rewrite list_lookup_insert_ne in Hi by congruence.
      destruct (Hslot i w Hi) as [H1 H2]. split; [exact H1|].
      apply in_or_app. left. exact H2.
  - intros i w Hi Hlei. apply in_app_or in Hi as [Hi|[Hi|[]]].
    + assert (i <> idx).
      { intros ->. apply Hfresh. apply in_map_iff. exists (idx, w). auto. }
      rewrite list_lookup_insert_ne by congruence. apply Hpre; assumption.
    + injection Hi as <- <-. apply list_lookup_insert_eq. lia.
  - exact Hout.
  - intros i l Hi. destruct (Hsrc i l Hi) as [w [Hw Hl]].
    exists w. split; [apply in_or_app; left; exact Hw|exact Hl].
Qed.

Lemma collect_from_inv rest :
  forall pre st,
  inv pre st -> drained st ->
  List.NoDup (map fst (app pre rest)) ->
  (forall i, In i (map fst rest) -> i < n) ->
  exists st', collect_from print_line st rest = Some st' /\
              inv (app pre rest) st' /\ drained st'.
Proof.
  induction rest as [|[idx v] rest IH]; intros pre st Hinv Hdr Hnd Hrange.
  - exists st. rewrite app_nil_r. auto.
  - assert (Hfresh : ~ In idx (map fst pre)).
    { rewrite map_app in Hnd. simpl in Hnd.
      apply NoDup_remove_2 in Hnd. intros H. apply Hnd. apply in_or_app. left. exact H. }
    destruct (receive_inv pre st idx v Hinv Hdr Hfresh) as [st1 [Hst1 [Hinv1 Hdr1]]].
    { apply Hrange. left. reflexivity. }
    simpl. rewrite Hst1.
    replace (app pre ((idx, v) :: rest)) with (app (app pre [(idx, v)]) rest) in *
      by (rewrite <- app_assoc; reflexivity).
    apply IH; try assumption.
    intros i Hi. apply Hrange. right. exact Hi.
Qed.

Lemma inv_init : inv [] (replicate n None, 0, []).
Proof.
  refine (conj _ (conj _ (conj _ (conj _ (conj _ _))))).
  - apply length_replicate.
  - lia.
  - intros i v Hi. apply lookup_replicate in Hi as [Hi _]. discriminate.
  - intros i v [].
  - reflexivity.
  - intros i l [].
Qed.

Lemma drained_init : drained (replicate n None, 0, []).
Proof.
  simpl. destruct n as [|m]; [left; reflexivity|].
  right. intros v. simpl. discriminate.
Qed.

End CollectorProofs.

(** C1: for every number [n] of targets and every arrival order of the
    per-target results (each index [0 .. n-1] sent exactly once), the
    collector prints exactly one line per target, in strictly increasing
    target order, each line formatted from that target's own result. *)
Theorem collect_prints_each_target_once_in_order {A : Type}
    (print_line : A -> string) (n : nat) (msgs : list (nat * A)) :
  Permutation (map fst msgs) (seq 0 n) ->
  exists out, collect print_line n msgs = Some out /\
    map fst out = seq 0 n /\
    (forall i l, In (i, l) out -> exists v, In (i, v) msgs /\ l = print_line v).
Proof.
  intros Hperm.
  destruct (collect_from_inv A print_line n msgs [] _
              (inv_init A print_line n) (drained_init A n))
    as [[[results next] out] [Hrun [Hinv Hdr]]].
  - simpl. apply (Permutation_NoDup (Permutation_sym Hperm)). apply seq_NoDup.
  - intros i Hi. apply (Permutation_in _ Hperm), in_seq in Hi. lia.
  - simpl in Hinv.
    destruct Hinv as (Hlen & Hle & Hslot & Hpre & Hout & Hsrc).
    assert (Hnext : next = n).
    { destruct Hdr as [Hdr|Hdr]; [exact Hdr|].
      destruct (Nat.le_gt_cases n next) as [H|H]; [lia|].
      assert (Hin : In next (map fst msgs))
        by (apply (Permutation_in _ (Permutation_sym Hperm)), in_seq; lia).
      apply in_map_iff in Hin as [[j v] [Hj Hjv]]. simpl in Hj; subst j.
      exfalso. apply (Hdr v). apply Hpre; [exact Hjv|lia]. }
    subst next. exists out.
    unfold collect. rewrite Hrun. simpl.
    split; [reflexivity|]. split; assumption.
Qed.

Lemma collect_prints_each_target_once_in_order_witness :
  Permutation (map fst [(2, "c"); (0, "a"); (3, "d"); (1, "b")]) (seq 0 4) /\
  exists out, collect (fun s : string => s) 4 [(2, "c"); (0, "a"); (3, "d"); (1, "b")] = Some out /\
    map fst out = seq 0 4 /\
    (forall i l, In (i, l) out -> exists v, In (i, v) [(2, "c"); (0, "a"); (3, "d"); (1, "b")] /\ l = v).
Proof.
  assert (H : Permutation (map fst [(2, "c"); (0, "a"); (3, "d"); (1, "b")]) (seq 0 4)).
  { apply (bool_decide_unpack _). vm_compute. exact I. }
  split; [exact H|].
  exact (collect_prints_each_target_once_in_order (fun s : string => s) 4 _ H).
Defined.

(** ** Failing runs *)

(** The first line of the error channel, as [stderr.lines().next()]. *)
Definition first_err_line (o : Output) : string :=
  RStr.unwrap_or (head (RStr.lines (stderr o))) "unknown error".

(** The first non-blank line of the error channel. *)
Definition first_nonblank_err_line (o : Output) : string :=
  RStr.unwrap_or (RStr.find_first (fun l => negb (RStr.is_blank l)) (RStr.lines (stderr o)))
                 "unknown error".

Definition failing_not_a_repo : Output :=
  mkOutput false ""
    (RStr.sapp "fatal: not a git repository"
       (String RStr.nl (RStr.sapp "some other line" (String RStr.nl EmptyString)))).

(** C2 (counterexample): on the spec's own failing input the passthrough
    classifier's message is not the first error line: it carries an
    [ERROR: ] prefix (as does the fetch classifier of git-all). *)
Lemma failing_message_has_prefix :
  fr_message (Passthrough.format failing_not_a_repo) = "ERROR: fatal: not a git repository" /\
  fr_message (Passthrough.format failing_not_a_repo) <> "fatal: not a git repository" /\
  Fetch.format_all failing_not_a_repo = "ERROR: fatal: not a git repository".
Proof. vm_compute. split; [reflexivity|split; [discriminate|reflexivity]]. Qed.

(** C2 (amended): on a non-zero exit status every classifier leaves the
    branch empty and builds its message from the error channel alone: the
    status, pull and fit fetch classifiers return the first line of the
    error channel (or "unknown error" when it has no line), while the
    passthrough and git-all fetch classifiers return "ERROR: " followed by
    the first non-blank error line (or by "unknown error" when there is
    none). *)
Theorem failing_run_message (o : Output) :
  success o = false ->
  Status.format o = Some (mkFormatted "" (first_err_line o)) /\
  message_only (Pull.format o) = mkFormatted "" (first_err_line o) /\
  message_only (Fetch.format_fit o) = mkFormatted "" (first_err_line o) /\
  message_only (Fetch.format_all o) =
    mkFormatted "" (RStr.sapp "ERROR: " (first_nonblank_err_line o)) /\
  Passthrough.format o = mkFormatted "" (RStr.sapp "ERROR: " (first_nonblank_err_line o)).
Proof.
  intros Hf. unfold Status.format, Pull.format, Fetch.format_fit, Fetch.format_all,
    Passthrough.format, first_err_line, first_nonblank_err_line.
  rewrite Hf. simpl. repeat split.
Qed.

Lemma failing_run_message_witness :
  success failing_not_a_repo = false /\
  Status.format failing_not_a_repo = Some (mkFormatted "" (first_err_line failing_not_a_repo)) /\
  message_only (Pull.format failing_not_a_repo) = mkFormatted "" (first_err_line failing_not_a_repo) /\
  message_only (Fetch.format_fit failing_not_a_repo) = mkFormatted "" (first_err_line failing_not_a_repo) /\
  message_only (Fetch.format_all failing_not_a_repo) =
    mkFormatted "" (RStr.sapp "ERROR: " (first_nonblank_err_line failing_not_a_repo)) /\
  Passthrough.format failing_not_a_repo =
    mkFormatted "" (RStr.sapp "ERROR: " (first_nonblank_err_line failing_not_a_repo)).
Proof.
  split; [reflexivity|]. apply failing_run_message. reflexivity.
Defined.

Example failing_status_first_line :
  Status.format failing_not_a_repo =
    Some (mkFormatted "" "fatal: not a git repository").
Proof. vm_compute. reflexivity. Qed.

(** ** Status: counting record lines *)
Module StatusProofs.
Import Status.

Definition total (c : Counters) : nat :=
  modified c + added c + deleted c + untracked c + renamed c.

Definition same_header (c c' : Counters) : Prop :=
  branch c' = branch c /\ ahead c' = ahead c /\ behind c' = behind c.

(** C3: a record line (not a header, at least two characters) adds at most
    one to the counters; '?' in the first column counts one untracked,
    M/A/D/R in the first column one modified/added/deleted/renamed whatever
    the second column holds (so "MM" is one modified and "AM" one added),
    and a blank first column with M or D in the second counts one
    modified or deleted. *)
Theorem record_line_counts_once (c : Counters) (line : string) :
  RStr.starts_with line "## " = false ->
  2 <= String.length line ->
  exists c', line_step c line = Some c' /\
    same_header c c' /\ total c' <= S (total c) /\
    (nth_char line 0 = "?"%char -> c' = inc_untracked c) /\
    (nth_char line 0 = "M"%char -> c' = inc_modified c) /\
    (nth_char line 0 = "A"%char -> c' = inc_added c) /\
    (nth_char line 0 = "D"%char -> c' = inc_deleted c) /\
    (nth_char line 0 = "R"%char -> c' = inc_renamed c) /\
    (nth_char line 0 = " "%char -> nth_char line 1 = "M"%char -> c' = inc_modified c) /\
    (nth_char line 0 = " "%char -> nth_char line 1 = "D"%char -> c' = inc_deleted c).
Proof.
  intros Hh Hlen. unfold line_step. rewrite Hh.
  destruct (Nat.ltb_spec (String.length line) 2) as [H|_]; [lia|].
  set (i := nth_char line 0). set (w := nth_char line 1).
  destruct c as [b a bh m ad d u r].
  unfold same_header, total, inc_untracked, inc_modified, inc_added, inc_deleted, inc_renamed; simpl.
  destruct (Ascii.eqb_spec i "?") as [Hq|Hq].
  { eexists; split; [reflexivity|]. simpl. rewrite Hq.
    repeat split; try lia; intros; discriminate. }
  destruct (Ascii.eqb_spec i "M") as [HM|HM].
  { rewrite HM. simpl. eexists; split; [reflexivity|]. simpl.
    repeat split; try lia; intros; try discriminate; reflexivity. }
  destruct (Ascii.eqb_spec i "A") as [HA|HA].
  { rewrite HA. simpl. eexists; split; [reflexivity|]. simpl.
    repeat split; try lia; intros; try discriminate; reflexivity. }
  destruct (Ascii.eqb_spec i "D") as [HD|HD].
  { rewrite HD. simpl. eexists; split; [reflexivity|]. simpl.
    repeat split; try lia; intros; try discriminate; reflexivity. }
  destruct (Ascii.eqb_spec i "R") as [HR|HR].
  { rewrite HR. simpl. eexists; split; [reflexivity|]. simpl.
    repeat split; try lia; intros; try discriminate; reflexivity. }
  destruct (Ascii.eqb_spec i " ") as [HS|HS].
  - destruct (Ascii.eqb_spec w "M") as [HwM|HwM].
    { eexists; split; [reflexivity|]. simpl.
      repeat split; try lia; intros; try congruence; reflexivity. }
    destruct (Ascii.eqb_spec w "D") as [HwD|HwD].
    { eexists; split; [reflexivity|]. simpl.
      repeat split; try lia; intros; try congruence; reflexivity. }
    eexists; split; [reflexivity|]. simpl.
    repeat split; try lia; intros; congruence.
  - eexists; split; [reflexivity|]. simpl.
    repeat split; try lia; intros; congruence.
Qed.

Lemma record_line_counts_once_witness :
  RStr.starts_with "AM file.txt" "## " = false /\ 2 <= String.length "AM file.txt" /\
  exists c', line_step init "AM file.txt" = Some c' /\
    same_header init c' /\ total c' <= S (total init) /\
    (nth_char "AM file.txt" 0 = "?"%char -> c' = inc_untracked init) /\
    (nth_char "AM file.txt" 0 = "M"%char -> c' = inc_modified init) /\
    (nth_char "AM file.txt" 0 = "A"%char -> c' = inc_added init) /\
    (nth_char "AM file.txt" 0 = "D"%char -> c' = inc_deleted init) /\
    (nth_char "AM file.txt" 0 = "R"%char -> c' = inc_renamed init) /\
    (nth_char "AM file.txt" 0 = " "%char -> nth_char "AM file.txt" 1 = "M"%char -> c' = inc_modified init) /\
    (nth_char "AM file.txt" 0 = " "%char -> nth_char "AM file.txt" 1 = "D"%char -> c' = inc_deleted init).
Proof.
  split; [reflexivity|]. split; [simpl; lia|].
  apply record_line_counts_once; [reflexivity|simpl; lia].
Defined.

End StatusProofs.

(** ** Facts on [i32] counters and on repeated lines *)
Module I32Facts.

Lemma wrap_add_l (x y : Z) : I32.wrap (I32.wrap x + y) = I32.wrap (x + y).
Proof.
  unfold I32.wrap.
  replace ((x + 2 ^ 31) mod 2 ^ 32 - 2 ^ 31 + y + 2 ^ 31)%Z with ((x + 2 ^ 31) mod 2 ^ 32 + y)%Z by lia.
  rewrite Zplus_mod_idemp_l. f_equal. f_equal. lia.
Qed.

Lemma of_count_wrap (k : nat) : I32.of_count k = I32.wrap (Z.of_nat k).
Proof.
  induction k as [|k IH]; [reflexivity|].
  change (I32.of_count (S k)) with (I32.add (I32.of_count k) 1).
  unfold I32.add. rewrite IH, wrap_add_l. f_equal. lia.
Qed.

Lemma of_count_small (k : nat) : k < 2 ^ 31 -> I32.of_count k = Z.of_nat k.
Proof.
  intros Hk. rewrite of_count_wrap. unfold I32.wrap.
  rewrite Z.mod_small; [lia|]. split; [lia|].
  apply Nat2Z.inj_lt in Hk. rewrite Nat2Z.inj_pow in Hk. simpl in Hk. lia.
Qed.

Lemma of_count_2_31 : I32.of_count (2 ^ 31) = (- 2 ^ 31)%Z.
Proof. rewrite of_count_wrap, Nat2Z.inj_pow. reflexivity. Qed.

Lemma fmt_of_nat (k : nat) : I32.fmt (Z.of_nat k) = RStr.fmt_nat k.
Proof.
  unfold I32.fmt. replace (Z.ltb (Z.of_nat k) 0) with false by (symmetry; apply Z.ltb_ge; lia).
  rewrite Nat2Z.id. reflexivity.
Qed.

Lemma ltb_of_nat (k : nat) : Z.ltb 0 (Z.of_nat k) = negb (Nat.eqb k 0).
Proof. destruct k; reflexivity. Qed.

Lemma eqb_of_nat_1 (k : nat) : Z.eqb (Z.of_nat k) 1 = Nat.eqb k 1.
Proof. destruct (Z.eqb_spec (Z.of_nat k) 1), (Nat.eqb_spec k 1); lia. Qed.

End I32Facts.

(** Outputs of [k] equal lines. *)
Module Repeat.
Import RStr.

Fixpoint repeat_line (k : nat) (l : string) : string :=
  match k with
  | 0 => ""
  | S k => sapp l (String nl (repeat_line k l))
  end.

Lemma append_nil_str (a : string) : String.append a "" = a.
Proof. induction a as [|ch a IH]; simpl; [reflexivity|]. rewrite IH. reflexivity. Qed.

Lemma append_assoc_str (a b c : string) :
  String.append a (String.append b c) = String.append (String.append a b) c.
Proof. induction a as [|ch a IH]; simpl; [reflexivity|]. rewrite IH. reflexivity. Qed.

Lemma length_append_str (a b : string) :
  String.length (String.append a b) = String.length a + String.length b.
Proof. induction a as [|ch a IH]; simpl; [reflexivity|]. rewrite IH. reflexivity. Qed.

Lemma lines_aux_line (l r cur : string) :
  forallb (fun ch => negb (Ascii.eqb ch nl)) (list_ascii_of_string l) = true ->
  lines_aux (sapp l (String nl r)) cur = strip_cr (sapp cur l) :: lines_aux r "".
Proof.
  revert cur. induction l as [|ch l IH]; intros cur Hl.
  - cbn. unfold sapp. rewrite append_nil_str. reflexivity.
  - cbn in Hl. apply andb_prop in Hl as [Hch Hl].
    cbn [sapp String.append lines_aux]. destruct (Ascii.eqb ch nl); [discriminate|].
    change (String.append l (String nl r)) with (sapp l (String nl r)).
    rewrite IH by exact Hl. f_equal. f_equal. unfold sapp.
    rewrite <- append_assoc_str. reflexivity.
Qed.

Lemma lines_repeat (k : nat) (l : string) :
  forallb (fun ch => negb (Ascii.eqb ch nl)) (list_ascii_of_string l) = true ->
  strip_cr l = l ->
  lines (repeat_line k l) = repeat l k.
Proof.
  intros Hl Hcr. unfold lines. induction k as [|k IH]; [reflexivity|].
  cbn [repeat_line repeat]. rewrite lines_aux_line by exact Hl. rewrite IH. f_equal. exact Hcr.
Qed.

End Repeat.

(** ** Status: rendering the message *)
Module StatusRender.
Import Status RStr.

(** The rendering as the spec words it: the non-zero counters as
    "<n> <kind>" clauses in the order modified, added, deleted, renamed,
    untracked, then the ahead/behind clauses; "clean" when there are none,
    "clean, " before the ahead/behind clauses when there are no file
    clauses, and otherwise all clauses joined with ", ". *)
Definition clause (n : nat) (kind : string) : list string :=
  if Nat.eqb n 0 then [] else [sapp (fmt_nat n) (sapp " " kind)].

Definition file_clauses (c : Counters) : list string :=
  clause (modified c) "modified" ++ clause (added c) "added" ++
  clause (deleted c) "deleted" ++ clause (renamed c) "renamed" ++
  clause (untracked c) "untracked".

Definition ab_clauses (c : Counters) : list string :=
  clause (N.to_nat (ahead c)) "ahead" ++ clause (N.to_nat (behind c)) "behind".

Definition render_spec (c : Counters) : string :=
  match file_clauses c, ab_clauses c with
  | [], [] => "clean"
  | [], ab => sapp "clean, " (join ", " ab)
  | fc, ab => join ", " (fc ++ ab)
  end.

(** Every file counter fits in an [i32]. *)
Definition counters_fit (c : Counters) : Prop :=
  modified c < 2 ^ 31 /\ added c < 2 ^ 31 /\ deleted c < 2 ^ 31 /\
  renamed c < 2 ^ 31 /\ untracked c < 2 ^ 31.

Lemma render_as_spec (c : Counters) : counters_fit c -> render c = render_spec c.
Proof.
  destruct c as [b a bh m ad d u r]. unfold counters_fit.
  cbn [modified added deleted renamed untracked]. intros (Hm & Had & Hd & Hr & Hu).
  unfold render, render_spec, file_clauses, ab_clauses, clause, fmt_N. cbn [modified added deleted renamed untracked ahead behind].
  rewrite !I32Facts.of_count_small by assumption.
  rewrite !I32Facts.ltb_of_nat, !I32Facts.fmt_of_nat.
  assert (Ha : N.ltb 0 a = negb (Nat.eqb (N.to_nat a) 0)).
  { destruct (N.ltb_spec 0 a), (Nat.eqb_spec (N.to_nat a) 0); simpl; lia. }
  assert (Hbh : N.ltb 0 bh = negb (Nat.eqb (N.to_nat bh) 0)).
  { destruct (N.ltb_spec 0 bh), (Nat.eqb_spec (N.to_nat bh) 0); simpl; lia. }
  rewrite Ha, Hbh.
  clear Hm Had Hd Hr Hu.
  destruct m, ad, d, r, u, (Nat.eqb (N.to_nat a) 0), (Nat.eqb (N.to_nat bh) 0);
    reflexivity.
Qed.

Lemma count_unstaged_modified (k : nat) (c : Counters) :
  count_lines c (repeat " M a.txt" k) = Some (Nat.iter k inc_modified c).
Proof.
  revert c. induction k as [|k IH]; intros c; [reflexivity|].
  cbn [repeat count_lines].
  replace (line_step c " M a.txt") with (Some (inc_modified c)) by reflexivity.
  rewrite IH, Nat.iter_succ_r. reflexivity.
Qed.

Lemma iter_inc_modified (k : nat) :
  Nat.iter k inc_modified init = mkCounters "" 0 0 k 0 0 0 0.
Proof. induction k as [|k IH]; [reflexivity|]. rewrite Nat.iter_succ, IH. reflexivity. Qed.

(** [2^31] lines " M a.txt": the unstaged-modification counter overflows. *)
Definition wrapping_status : Output :=
  mkOutput true (Repeat.repeat_line (2 ^ 31) " M a.txt") "".

Lemma sapp_not_clean (a b : string) : 5 < String.length b -> sapp a b <> "clean".
Proof.
  intros H E. apply (f_equal String.length) in E. unfold sapp in E.
  rewrite Repeat.length_append_str in E. simpl in E. lia.
Qed.

(** C4 (defect): the rendering is the spec's as long as every file
    counter fits in an [i32]; at [2^31] unstaged modifications the [i32]
    counter wraps to a negative value, [modified > 0] fails, and the
    message is "clean" where the spec's rendering reports
    "2147483648 modified". *)
Theorem status_counter_wraps :
  (forall (o : Output) (c : Counters),
     success o = true ->
     count_lines init (lines (stdout o)) = Some c ->
     counters_fit c ->
     Status.format o = Some (mkFormatted (branch c) (render_spec c))) /\
  (exists c, count_lines init (lines (stdout wrapping_status)) = Some c /\
             c = mkCounters "" 0 0 (2 ^ 31) 0 0 0 0 /\
             render_spec c = sapp (fmt_nat (2 ^ 31)) " modified" /\
             render_spec c <> "clean" /\
             Status.format wrapping_status = Some (mkFormatted "" "clean")).
Proof.
  split.
  - intros o c Hs Hc Hfit. unfold Status.format. rewrite Hs. simpl. rewrite Hc.
    rewrite render_as_spec by exact Hfit. reflexivity.
  - assert (Hl : lines (stdout wrapping_status) = repeat " M a.txt" (2 ^ 31)).
    { change (stdout wrapping_status) with (Repeat.repeat_line (2 ^ 31) " M a.txt").
      apply (Repeat.lines_repeat (2 ^ 31) " M a.txt"); reflexivity. }
    assert (Hz : 2 ^ 31 <> 0) by (apply Nat.pow_nonzero; lia).
    assert (Hc : count_lines init (lines (stdout wrapping_status)) =
                 Some (mkCounters "" 0 0 (2 ^ 31) 0 0 0 0)).
    { rewrite Hl, count_unstaged_modified, iter_inc_modified. reflexivity. }
    assert (Hspec : render_spec (mkCounters "" 0 0 (2 ^ 31) 0 0 0 0) =
                    sapp (fmt_nat (2 ^ 31)) " modified").
    { unfold render_spec, file_clauses, ab_clauses, clause.
      cbn [modified added deleted renamed untracked ahead behind].
      rewrite (proj2 (Nat.eqb_neq _ _) Hz).
      set (K := 2 ^ 31). clearbody K. reflexivity. }
    exists (mkCounters "" 0 0 (2 ^ 31) 0 0 0 0).
    split; [exact Hc|]. split; [reflexivity|]. split; [exact Hspec|].
    split; [rewrite Hspec; apply sapp_not_clean; simpl; lia|].
    assert (Hr : render (mkCounters "" 0 0 (2 ^ 31) 0 0 0 0) = "clean").
    { unfold render. cbn [modified added deleted renamed untracked ahead behind].
      rewrite I32Facts.of_count_2_31. reflexivity. }
    unfold Status.format.
    replace (success wrapping_status) with true by reflexivity.
    rewrite Hc, Hr. reflexivity.
Qed.

Definition L (l : list string) : string :=
  fold_right (fun x acc => sapp x (String nl acc)) "" l.

(** The spec's examples. *)
Example status_clean : Status.format (mkOutput true (L ["## main"]) "")
  = Some (mkFormatted "main" "clean").
Proof. vm_compute. reflexivity. Qed.

Example status_one_unstaged : Status.format (mkOutput true (L ["## main"; " M file.txt"]) "")
  = Some (mkFormatted "main" "1 modified").
Proof. vm_compute. reflexivity. Qed.

Example status_all_kinds :
  Status.format (mkOutput true (L ["## main"; "M  a.txt"; "A  b.txt"; "D  c.txt";
                                   "R  d.txt -> e.txt"; "?? f.txt"]) "")
  = Some (mkFormatted "main" "1 modified, 1 added, 1 deleted, 1 renamed, 1 untracked").
Proof. vm_compute. reflexivity. Qed.

Example status_combined_markers :
  Status.format (mkOutput true (L ["## main"; "MM a.txt"; "AM b.txt"]) "")
  = Some (mkFormatted "main" "1 modified, 1 added").
Proof. vm_compute. reflexivity. Qed.

Example status_diverged :
  Status.format (mkOutput true (L ["## main...origin/main [ahead 2, behind 3]"]) "")
  = Some (mkFormatted "main" "clean, 2 ahead, 3 behind").
Proof. vm_compute. reflexivity. Qed.

End StatusRender.

(** ** Blank lines and markers *)
Module Blank.
Import RStr.

Definition all_ws (s : string) : bool := forallb is_ws (list_ascii_of_string s).

Lemma trim_start_all_ws (s : string) : all_ws (trim_start s) = true -> all_ws s = true.
Proof.
  induction s as [|c r IH]; [auto|]. simpl.
  destruct (is_ws c) eqn:Hc; [|auto].
  intros H. unfold all_ws. simpl. rewrite Hc. exact (IH H).
Qed.

Lemma trim_start_empty (s : string) : trim_start s = "" -> all_ws s = true.
Proof. intros H. apply trim_start_all_ws. rewrite H. reflexivity. Qed.

Lemma rev_str_empty (s : string) : rev_str s = "" -> s = "".
Proof.
  destruct s as [|c r]; [auto|]. unfold rev_str. simpl.
  destruct (rev (list_ascii_of_string r)); simpl; discriminate.
Qed.

Lemma all_ws_rev_str (s : string) : all_ws (rev_str s) = all_ws s.
Proof.
  unfold all_ws, rev_str. rewrite list_ascii_of_string_of_list_ascii.
  apply Bool.eq_iff_eq_true. rewrite !forallb_forall. split; intros H x Hx; apply H.
  - apply (proj1 (in_rev _ _)) in Hx. exact Hx.
  - apply (proj2 (in_rev _ _)). exact Hx.
Qed.

(** A blank line has only whitespace. *)
Lemma blank_all_ws (s : string) : is_blank s = true -> all_ws s = true.
Proof.
  unfold is_blank, trim. intros H. apply String.eqb_eq in H.
  apply rev_str_empty, trim_start_empty in H.
  rewrite all_ws_rev_str in H. apply trim_start_all_ws. exact H.
Qed.

(** A pattern starting with a non-whitespace character is not found in a
    whitespace-only string. *)
Lemma all_ws_no_match (s : string) (c : ascii) (r : string) :
  all_ws s = true -> is_ws c = false -> String.index 0 (String c r) s = None.
Proof.
  induction s as [|b s IH]; intros Hs Hc; [reflexivity|].
  unfold all_ws in Hs. simpl in Hs. apply andb_prop in Hs as [Hb Hs].
  simpl. destruct (ascii_dec c b) as [->|_]; [congruence|].
  rewrite (IH Hs Hc). reflexivity.
Qed.

Lemma contains_not_blank (s : string) (c : ascii) (r : string) :
  is_ws c = false -> contains s (String c r) = true -> is_blank s = false.
Proof.
  intros Hc Hm. destruct (is_blank s) eqn:Hb; [|reflexivity].
  apply blank_all_ws in Hb. unfold contains, find in Hm.
  rewrite (all_ws_no_match s c r Hb Hc) in Hm. discriminate.
Qed.

End Blank.

(** ** Fetch: the summary of a successful run *)
Module FetchProofs.
Import RStr Fetch.

Definition nonblank (l : string) : bool := negb (is_blank l).
Definition informative_err (l : string) : bool := negb (is_blank l) && negb (starts_with l "From").

(** The fetch summary as the spec words it: count the normal-output lines
    with "->" or "[new" as tag creations ("[new tag]") or branch updates and
    render "<b> branch(es), <t> tag(s) updated" without a zero count; with
    no such line, "no new commits" when neither channel has other non-blank
    content (lines starting "From" on the error channel do not count), and
    "fetched" otherwise. *)
Definition branch_clause (b : nat) : list string :=
  if Nat.eqb b 0 then [] else [sapp (fmt_nat b) (if Nat.eqb b 1 then " branch" else " branches")].
Definition tag_clause (t : nat) : list string :=
  if Nat.eqb t 0 then [] else [sapp (fmt_nat t) (if Nat.eqb t 1 then " tag" else " tags")].

Definition fetch_spec (o : Output) : string :=
  let updates := List.filter is_update (lines (stdout o)) in
  let b := length (List.filter (fun l => negb (is_tag l)) updates) in
  let t := length (List.filter is_tag updates) in
  if negb (is_empty updates) then sapp (join ", " (branch_clause b ++ tag_clause t)) " updated"
  else if existsb nonblank (lines (stdout o)) || existsb informative_err (lines (stderr o))
  then "fetched" else "no new commits".

Lemma update_not_blank (l : string) : is_update l = true -> nonblank l = true.
Proof.
  unfold is_update, nonblank. intros H. apply orb_prop in H as [H|H].
  - rewrite (Blank.contains_not_blank l "-" ">" eq_refl H). reflexivity.
  - rewrite (Blank.contains_not_blank l "[" "new" eq_refl H). reflexivity.
Qed.

Lemma updates_nonempty_output (ls : list string) :
  is_empty (List.filter is_update ls) = false -> existsb nonblank ls = true.
Proof.
  induction ls as [|l r IH]; simpl; [discriminate|].
  destruct (is_update l) eqn:Hu.
  - intros _. rewrite (update_not_blank l Hu). reflexivity.
  - intros H. rewrite (IH H). apply orb_true_r.
Qed.

(** fit's fold counts in [i32]. *)
Lemma count_fold_i32 (ls : list string) (b t : nat) :
  fold_left (fun '(b, t) l => if is_tag l then (b, I32.add t 1) else (I32.add b 1, t))
    ls (I32.of_count b, I32.of_count t) =
  (I32.of_count (b + length (List.filter (fun l => negb (is_tag l)) ls)),
   I32.of_count (t + length (List.filter is_tag ls))).
Proof.
  revert b t. induction ls as [|l r IH]; intros b t; simpl.
  - rewrite !Nat.add_0_r. reflexivity.
  - destruct (is_tag l); simpl.
    + change (I32.add (I32.of_count t) 1) with (I32.of_count (S t)).
      rewrite IH. f_equal; f_equal; lia.
    + change (I32.add (I32.of_count b) 1) with (I32.of_count (S b)).
      rewrite IH. f_equal; f_equal; lia.
Qed.

Lemma length_filter_split (ls : list string) :
  length (List.filter (fun l => negb (is_tag l)) ls) + length (List.filter is_tag ls) = length ls.
Proof. induction ls as [|l r IH]; simpl; [reflexivity|]. destruct (is_tag l); simpl; lia. Qed.

Lemma is_empty_filter (p : string -> bool) (ls : list string) :
  is_empty (List.filter p ls) = negb (existsb p ls).
Proof. induction ls as [|l r IH]; simpl; [reflexivity|]. destruct (p l); simpl; auto. Qed.

Lemma render_counts_i32_spec (b t : nat) :
  0 < b + t -> b < 2 ^ 31 -> t < 2 ^ 31 ->
  Z.ltb 0 (I32.of_count b) || Z.ltb 0 (I32.of_count t) = true /\
  render_counts_i32 (I32.of_count b) (I32.of_count t) =
    sapp (join ", " (branch_clause b ++ tag_clause t)) " updated".
Proof.
  intros H Hb Ht. rewrite !I32Facts.of_count_small by assumption.
  unfold render_counts_i32, branch_clause, tag_clause, plural_i32.
  rewrite !I32Facts.ltb_of_nat, !I32Facts.eqb_of_nat_1, !I32Facts.fmt_of_nat.
  clear Hb Ht.
  destruct b as [|b], t as [|t]; simpl; try lia;
    repeat match goal with |- context [Nat.eqb ?x ?y] => destruct (Nat.eqb x y) end;
    split; reflexivity.
Qed.

(** The fit formatter on a successful run, and the git-all one. *)
Lemma fetch_summary_all (o : Output) :
  success o = true -> format_all o = fetch_spec o.
Proof.
  intros Hs. unfold format_all, fetch_spec. rewrite Hs.
  cbn beta iota zeta delta [negb].
  set (ls := lines (stdout o)). set (es := lines (stderr o)).
  rewrite (is_empty_filter (fun l => negb (is_blank l))),
          (is_empty_filter (fun l => negb (is_blank l) && negb (starts_with l "From"))).
  fold nonblank informative_err.
  remember (List.filter is_update ls) as ups eqn:Hups.
  pose proof (length_filter_split ups) as Hsplit.
  set (b := length (List.filter (fun l => negb (is_tag l)) ups)) in *.
  set (t := length (List.filter is_tag ups)) in *.
  destruct ups as [|u us].
  - cbn. destruct (existsb nonblank ls), (existsb informative_err es); reflexivity.
  - assert (Hu : is_empty (List.filter is_update ls) = false) by (rewrite <- Hups; reflexivity).
    rewrite (updates_nonempty_output ls Hu). cbn [is_empty negb orb andb].
    clearbody b t. simpl in Hsplit. unfold branch_clause, tag_clause, plural.
    destruct b as [|b], t as [|t]; try lia; cbn -[fmt_nat];
      repeat match goal with |- context [Nat.eqb ?x ?y] => destruct (Nat.eqb x y) end;
      reflexivity.
Qed.

Lemma fetch_summary_fit (o : Output) :
  success o = true ->
  length (List.filter is_update (lines (stdout o))) < 2 ^ 31 ->
  format_fit o = fetch_spec o.
Proof.
  intros Hs Hlen. unfold format_fit, fetch_spec. rewrite Hs.
  cbn beta iota zeta delta [negb].
  change (0%Z, 0%Z) with (I32.of_count 0, I32.of_count 0).
  rewrite count_fold_i32.
  set (ls := lines (stdout o)) in *. set (es := lines (stderr o)).
  fold nonblank informative_err.
  remember (List.filter is_update ls) as ups eqn:Hups.
  pose proof (length_filter_split ups) as Hsplit.
  set (b := length (List.filter (fun l => negb (is_tag l)) ups)) in *.
  set (t := length (List.filter is_tag ups)) in *.
  destruct ups as [|u us].
  - subst b t. cbn. destruct (existsb nonblank ls), (existsb informative_err es); reflexivity.
  - assert (Hu : is_empty (List.filter is_update ls) = false) by (rewrite <- Hups; reflexivity).
    rewrite (updates_nonempty_output ls Hu). cbn [is_empty negb orb].
    clearbody b t. cbn [length] in Hsplit, Hlen.
    set (K := 2 ^ 31) in *.
    destruct (render_counts_i32_spec b t) as [E1 E2]; try (change (2 ^ 31) with K); [lia|lia|lia|].
    simpl Nat.add. rewrite E1. exact E2.
Qed.

(** [2^31] lines that each report a branch update. *)
Definition update_line : string := "   abc123..def456  main       -> origin/main".

Definition wrapping_fetch : Output :=
  mkOutput true (Repeat.repeat_line (2 ^ 31) update_line) "".

Lemma filter_repeat (p : string -> bool) (l : string) (k : nat) :
  List.filter p (repeat l k) = if p l then repeat l k else [].
Proof. induction k as [|k IH]; simpl; destruct (p l); simpl; congruence. Qed.

(** C5 (defect): git-all's classifier gives the spec's summary on every
    successful run, and fit's as long as there are fewer than [2^31]
    update lines; at [2^31] branch updates fit's [i32] branch count wraps
    to a negative value, [branch_count > 0] fails, and fit reports
    "fetched" where the spec's summary is "2147483648 branches updated". *)
Theorem fetch_counter_wraps :
  (forall o : Output,
     success o = true ->
     format_all o = fetch_spec o /\
     (length (List.filter is_update (lines (stdout o))) < 2 ^ 31 -> format_fit o = fetch_spec o)) /\
  (fetch_spec wrapping_fetch = sapp (fmt_nat (2 ^ 31)) " branches updated" /\
   format_all wrapping_fetch = fetch_spec wrapping_fetch /\
   format_fit wrapping_fetch = "fetched").
Proof.
  split.
  - intros o Hs. split; [apply fetch_summary_all, Hs|]. apply fetch_summary_fit, Hs.
  - assert (Hl : lines (stdout wrapping_fetch) = repeat update_line (2 ^ 31)).
    { apply Repeat.lines_repeat; reflexivity. }
    assert (Hz : 2 ^ 31 <> 0) by (apply Nat.pow_nonzero; lia).
    assert (Hz1 : 2 ^ 31 <> 1).
    { intros E. apply (f_equal Z.of_nat) in E. rewrite Nat2Z.inj_pow in E. discriminate E. }
    assert (Hu : is_update update_line = true) by reflexivity.
    assert (Ht : is_tag update_line = false) by reflexivity.
    assert (Hspec : fetch_spec wrapping_fetch = sapp (fmt_nat (2 ^ 31)) " branches updated").
    { unfold fetch_spec. rewrite Hl, filter_repeat, Hu.
      rewrite filter_repeat, Ht. cbn [negb]. rewrite filter_repeat, Ht. rewrite repeat_length.
      destruct (2 ^ 31) as [|k] eqn:E; [contradiction|]. cbn [repeat is_empty negb].
      unfold branch_clause, tag_clause.
      rewrite (proj2 (Nat.eqb_neq _ _) Hz), (proj2 (Nat.eqb_neq _ _) Hz1).
      change (sapp (sapp (fmt_nat (S k)) " branches") " updated" =
              sapp (fmt_nat (S k)) " branches updated").
      unfold sapp. rewrite <- Repeat.append_assoc_str. reflexivity. }
    split; [exact Hspec|]. split; [apply fetch_summary_all; reflexivity|].
    unfold format_fit.
    replace (success wrapping_fetch) with true by reflexivity.
    replace (lines (stderr wrapping_fetch)) with (@nil string) by reflexivity.
    rewrite Hl. cbn [negb].
    assert (Hne : existsb (fun l => negb (is_blank l)) (repeat update_line (2 ^ 31)) = true).
    { destruct (2 ^ 31) as [|k]; [contradiction|]. reflexivity. }
    rewrite Hne. cbn [orb negb].
    rewrite filter_repeat, Hu.
    change (0%Z, 0%Z) with (I32.of_count 0, I32.of_count 0).
    rewrite count_fold_i32, filter_repeat, filter_repeat, Ht. cbn [negb].
    rewrite repeat_length. cbn [length Nat.add].
    rewrite I32Facts.of_count_2_31. reflexivity.
Qed.

Definition L (l : list string) : string :=
  fold_right (fun x acc => sapp x (String nl acc)) "" l.

Definition branch_and_tag : Output :=
  mkOutput true (L ["   abc123..def456  main       -> origin/main";
                    " * [new tag]         v1.0.0     -> v1.0.0"]) "".

Example fetch_branch_and_tag : fetch_spec branch_and_tag = "1 branch, 1 tag updated".
Proof. vm_compute. reflexivity. Qed.

Example fetch_only_from_line :
  format_fit (mkOutput true "" "From github.com:user/repo") = "no new commits" /\
  format_all (mkOutput true "" "From github.com:user/repo") = "no new commits".
Proof. vm_compute. split; reflexivity. Qed.

Example fetch_other_output :
  format_fit (mkOutput true (L ["some other output"]) "") = "fetched".
Proof. vm_compute. reflexivity. Qed.

End FetchProofs.

(** ** Pull: the summary of a successful run *)
Module PullProofs.
Import RStr.

Lemma prefix_app (p q s : string) : String.prefix (String.append p q) s = true -> String.prefix p s = true.
Proof.
  revert s. induction p as [|c p IH]; intros s H; [destruct s; reflexivity|].
  destruct s as [|b s]; simpl in *; [discriminate|].
  destruct (ascii_dec c b); [apply IH; exact H|discriminate].
Qed.

(** A string containing [p ++ q] contains [p]. *)
Lemma contains_app (s p q : string) : contains s (String.append p q) = true -> contains s p = true.
Proof.
  unfold contains, find. induction s as [|b s IH]; cbn [String.index].
  - destruct p, q; simpl; try discriminate; reflexivity.
  - destruct (String.prefix (String.append p q) (String b s)) eqn:Hpq.
    + rewrite (prefix_app p q _ Hpq). reflexivity.
    + destruct (String.index 0 (String.append p q) s) eqn:Hi; [|discriminate].
      intros _. specialize (IH eq_refl).
      destruct (String.prefix p (String b s)); [reflexivity|].
      destruct (String.index 0 p s); [reflexivity|discriminate].
Qed.

Definition up_to_date_out : Output :=
  mkOutput true (String.append "Already up to date." (String nl EmptyString)) "".

(** C6 (counterexample): normal output "Already up to date." gives the
    message "Already up to date", without the period. *)
Lemma pull_up_to_date_drops_period :
  Pull.format up_to_date_out = "Already up to date" /\
  Pull.format up_to_date_out <> "Already up to date.".
Proof. vm_compute. split; [reflexivity|discriminate]. Qed.

(** C6 (amended): on a successful run the pull message follows the
    cascade: the fixed text "Already up to date" (no period) when the
    normal output contains that phrase, so also for any output containing
    "Already up to date."; else the first normal-output line containing
    "files changed", trimmed; else the first one containing ".." or
    "Updating", trimmed; else the first non-blank line of the normal output
    and then of the error channel, trimmed; else "completed". *)
Theorem pull_summary (o : Output) :
  success o = true ->
  (contains (stdout o) "Already up to date." = true -> Pull.format o = "Already up to date") /\
  (contains (stdout o) "Already up to date" = true -> Pull.format o = "Already up to date") /\
  (contains (stdout o) "Already up to date" = false ->
   forall l, find_first (fun l => contains l "files changed") (lines (stdout o)) = Some l ->
   Pull.format o = trim l) /\
  (contains (stdout o) "Already up to date" = false ->
   find_first (fun l => contains l "files changed") (lines (stdout o)) = None ->
   forall l, find_first (fun l => contains l ".." || contains l "Updating") (lines (stdout o)) = Some l ->
   Pull.format o = trim l) /\
  (contains (stdout o) "Already up to date" = false ->
   find_first (fun l => contains l "files changed") (lines (stdout o)) = None ->
   find_first (fun l => contains l ".." || contains l "Updating") (lines (stdout o)) = None ->
   Pull.format o =
     trim (unwrap_or (find_first (fun l => negb (is_blank l))
                                 (lines (stdout o) ++ lines (stderr o))) "completed")).
Proof.
  intros Hs. unfold Pull.format. rewrite Hs. simpl.
  split; [|split; [|split; [|split]]].
  - intros H. rewrite (contains_app (stdout o) "Already up to date" "." H). reflexivity.
  - intros H. rewrite H. reflexivity.
  - intros H l Hl. rewrite H, Hl. reflexivity.
  - intros H Hf l Hl. rewrite H, Hf, Hl. reflexivity.
  - intros H Hf Hu. rewrite H, Hf, Hu. reflexivity.
Qed.

Lemma pull_summary_witness :
  success up_to_date_out = true /\
  (contains (stdout up_to_date_out) "Already up to date." = true -> Pull.format up_to_date_out = "Already up to date") /\
  (contains (stdout up_to_date_out) "Already up to date" = true -> Pull.format up_to_date_out = "Already up to date") /\
  (contains (stdout up_to_date_out) "Already up to date" = false ->
   forall l, find_first (fun l => contains l "files changed") (lines (stdout up_to_date_out)) = Some l ->
   Pull.format up_to_date_out = trim l) /\
  (contains (stdout up_to_date_out) "Already up to date" = false ->
   find_first (fun l => contains l "files changed") (lines (stdout up_to_date_out)) = None ->
   forall l, find_first (fun l => contains l ".." || contains l "Updating") (lines (stdout up_to_date_out)) = Some l ->
   Pull.format up_to_date_out = trim l) /\
  (contains (stdout up_to_date_out) "Already up to date" = false ->
   find_first (fun l => contains l "files changed") (lines (stdout up_to_date_out)) = None ->
   find_first (fun l => contains l ".." || contains l "Updating") (lines (stdout up_to_date_out)) = None ->
   Pull.format up_to_date_out =
     trim (unwrap_or (find_first (fun l => negb (is_blank l))
                                 (lines (stdout up_to_date_out) ++ lines (stderr up_to_date_out))) "completed")).
Proof. split; [reflexivity|]. apply pull_summary. reflexivity. Defined.

End PullProofs.

(** ** Commands: argument lists and the dry run *)
Module RunnerProofs.
Import Runner.

Definition url_override (s : option UrlScheme) : list string :=
  match s with
  | Some Ssh => ["-c"; ssh_rewrite]
  | Some Https => ["-c"; https_rewrite]
  | None => []
  end.

(** C8: the spawned argument list is the URL-rewrite override (when a
    scheme is set), the global arguments, "-C" with the target path and
    the subcommand arguments, in that order, in git-all; fit's commands
    carry no global arguments. *)
Theorem spawn_argument_order (g : GitCommand) (s : option UrlScheme) (repo : string) (a : list string) :
  argv (spawn_command g s) =
    "git" :: url_override s ++ global_args g ++ ["-C"; repo_path g] ++ args g /\
  argv (spawn_command_fit repo a s) = "git" :: url_override s ++ ["-C"; repo] ++ a.
Proof.
  unfold argv, spawn_command, spawn_command_fit, url_override, env, args_, arg, Command_new.
  destruct s as [[|]|]; simpl; split; rewrite <- ?app_assoc; reflexivity.
Qed.

(** In dry-run mode [run_parallel] spawns no process: every event it
    produces is a printed line. *)
Lemma dry_run_spawns_nothing (ctx : ExecutionContext) (repos : list string)
    (build : string -> GitCommand) :
  dry_run ctx = true ->
  run_parallel_events ctx repos build =
    map (fun repo => Print (command_string_with_scheme (build repo) (url_scheme ctx))) repos /\
  Forall (fun e => is_spawn e = false) (run_parallel_events ctx repos build).
Proof.
  intros Hd. unfold run_parallel_events. rewrite Hd. split; [reflexivity|].
  induction repos as [|r rs IH]; simpl; constructor; auto.
Qed.

Definition spaced_repo : string := "/w/my repo".
Definition other_command : GitCommand :=
  mkGitCommand "/w/my" ["--no-optional-locks"] ["repo"; "status"; "--porcelain"; "-b"].

(** C7 (defect): the dry-run line for a target whose path holds a space is
    the very line printed for another command, which spawns a different
    argument list: the printed line is not the command that runs. *)
Lemma dry_run_line_not_the_command :
  run_parallel_events (mkContext true None 8) [spaced_repo] (status_build []) =
    [Print "git --no-optional-locks -C /w/my repo status --porcelain -b"] /\
  command_string_with_scheme other_command None =
    "git --no-optional-locks -C /w/my repo status --porcelain -b" /\
  argv (spawn_command (status_build [] spaced_repo) None) =
    ["git"; "--no-optional-locks"; "-C"; "/w/my repo"; "status"; "--porcelain"; "-b"] /\
  argv (spawn_command other_command None) =
    ["git"; "--no-optional-locks"; "-C"; "/w/my"; "repo"; "status"; "--porcelain"; "-b"] /\
  argv (spawn_command (status_build [] spaced_repo) None) <> argv (spawn_command other_command None).
Proof. vm_compute. repeat split; try reflexivity. discriminate. Qed.

End RunnerProofs.

(** ** No repositories found *)
Module MainProofs.
Import Runner Main.

(** C9 (amended): when discovery is reached (no passthrough to [git], not
    a meta command) and finds no repository, git-all prints the notice and
    exits with status 9, which differs from success (0) and from an error
    returned by [main] (1); fit prints the same notice and returns [Ok(())],
    a success.  Both hold for every dry-run, URL-scheme, worker and
    scan-depth setting and every command. *)
Theorem no_repos_exit_9 (version : string) (meta_run : list string -> list string)
    (is_meta inside : bool) (cli : Cli)
    (discover : option nat -> option (list string))
    (run : ExecutionContext -> list string -> list string * Outcome) :
  (negb is_meta && inside) = false ->
  is_meta_cmd (cli_command cli) = false ->
  discover (cli_scan_depth cli) = Some [] ->
  main_all version meta_run is_meta inside cli discover run = ([no_repos_notice], Exit 9) /\
  exit_code (snd (main_all version meta_run is_meta inside cli discover run)) = Some 9 /\
  exit_code ReturnOk <> Some 9 /\ exit_code ReturnErr <> Some 9 /\
  main_fit version meta_run is_meta inside cli (Some []) run = ([no_repos_notice], ReturnOk) /\
  exit_code (snd (main_fit version meta_run is_meta inside cli (Some []) run)) = Some 0.
Proof.
  intros Hp Hm Hd. unfold main_all, main_fit. rewrite Hp, Hd.
  destruct (cli_command cli) as [[a|a|a|a|a]|]; try discriminate Hm;
    repeat split; discriminate.
Qed.

Definition status_cli : Cli := mkCli true true false 8 (Some 1) (Some (Status [])).

Definition no_output_meta (_ : list string) : list string := [].
Definition no_repo_found (_ : option nat) : option (list string) := Some [].
Definition run_ok (_ : ExecutionContext) (_ : list string) : list string * Outcome := ([], ReturnOk).

Lemma no_repos_exit_9_witness :
  (negb false && false) = false /\
  is_meta_cmd (cli_command status_cli) = false /\
  no_repo_found (cli_scan_depth status_cli) = Some [] /\
  main_all "0.1.0" no_output_meta false false status_cli no_repo_found run_ok
    = ([no_repos_notice], Exit 9) /\
  exit_code (snd (main_all "0.1.0" no_output_meta false false status_cli no_repo_found run_ok))
    = Some 9 /\
  exit_code ReturnOk <> Some 9 /\ exit_code ReturnErr <> Some 9 /\
  main_fit "0.1.0" no_output_meta false false status_cli (Some []) run_ok
    = ([no_repos_notice], ReturnOk) /\
  exit_code (snd (main_fit "0.1.0" no_output_meta false false status_cli (Some []) run_ok))
    = Some 0.
Proof.
  split; [reflexivity|]. split; [reflexivity|]. split; [reflexivity|].
  apply no_repos_exit_9; reflexivity.
Defined.

(** C9 (counterexample): with no repository found, fit prints the notice
    and returns [Ok(())]: exit status 0, a success. *)
Lemma fit_no_repos_succeeds :
  main_fit "0.1.0" no_output_meta false false status_cli (Some []) run_ok
    = ([no_repos_notice], ReturnOk) /\
  exit_code (snd (main_fit "0.1.0" no_output_meta false false status_cli (Some []) run_ok))
    = Some 0.
Proof. split; reflexivity. Qed.

End MainProofs.

(** ** Status header parsing *)
Module HeaderProofs.
Import Status.

Definition bracket_header : string := "## main...origin/feat]x [ahead 1]".

(** C10 (defect): an upstream branch whose name holds ']' (allowed in git
    ref names) puts a ']' before the '[' of the tracking clause, and the
    slice [&tracking_info[bracket_start + 1..bracket_end]] panics; a
    non-numeric count without such a ']' does parse as 0. *)
Lemma header_with_bracket_panics :
  parse_branch_line bracket_header = None /\
  Status.format (mkOutput true (StatusRender.L [bracket_header]) "") = None /\
  parse_branch_line "## main...origin/main [ahead zz, behind 3]" = Some ("main", 0%N, 3%N).
Proof. vm_compute. repeat split. Qed.

End HeaderProofs.

(** * Further parts of the runner *)

(** ** Column layout (rust/src/runner.rs, fit-rust/src/runner.rs) *)
Module Layout.
Import RStr.

Definition MIN_REPO_NAME_WIDTH : nat := 4.
Definition MAX_REPO_NAME_WIDTH_CAP : nat := 48.
Definition MAX_BRANCH_WIDTH_CAP : nat := 16.

(** A continuation byte of UTF-8 ([0b10xxxxxx]); every other byte of a
    valid UTF-8 string starts a character. *)
Definition is_cont (b : ascii) : bool :=
  Nat.leb 128 (nat_of_ascii b) && Nat.ltb (nat_of_ascii b) 192.

(** [s.chars().count()] *)
Fixpoint char_count (s : string) : nat :=
  match s with
  | EmptyString => 0
  | String b r => (if is_cont b then 0 else 1) + char_count r
  end.

(** [s.is_ascii()] *)
Definition is_ascii (s : string) : bool :=
  forallb (fun b => Nat.ltb (nat_of_ascii b) 128) (list_ascii_of_string s).

(** [value.chars().take(n).collect::<String>()]: the bytes of the first
    [n] characters. *)
Fixpoint take (n : nat) (s : string) : string :=
  match s with
  | EmptyString => EmptyString
  | String b r =>
      if is_cont b then String b (take n r)
      else match n with
           | 0 => EmptyString
           | S k => String b (take k r)
           end
  end.

Fixpoint spaces (n : nat) : string :=
  match n with 0 => "" | S k => String " " (spaces k) end.

(** [format!("{value:<width$}")]: pad on the right with spaces up to
    [width] characters. *)
Definition pad_right (value : string) (width : nat) : string :=
  sapp value (spaces (width - char_count value)).

(** [format_column]: [value.len()] is the length in bytes. *)
Definition format_column (value : string) (width : nat) : string :=
  if Nat.ltb width (String.length value) then
    if Nat.leb width 3 then take width value
    else sapp (take (width - 3) value) "..."
  else pad_right value width.

(** [compute_name_width], over the display names of the repositories
    ([repo_display_name repo display_root] for each repo). *)
Definition compute_name_width (names : list string) : nat :=
  let max_len := fold_left (fun m name => Nat.max m (String.length name)) names 0 in
  let capped := Nat.min max_len MAX_REPO_NAME_WIDTH_CAP in
  Nat.max capped MIN_REPO_NAME_WIDTH.

Definition MAX_REPO_NAME_WIDTH : nat := 24.

(** [s.is_char_boundary(i)] *)
Definition is_char_boundary (s : string) (i : nat) : bool :=
  match String.get i s with
  | Some b => negb (is_cont b)
  | None => Nat.eqb i (String.length s)
  end.

(** [&s[..i]]; [None] is a panic. *)
Definition slice_to (s : string) (i : nat) : option string :=
  if is_char_boundary s i then Some (substring 0 i s) else None.

(** [format_repo_name] of fit-rust/src/runner.rs; [None] is a panic. *)
Definition format_repo_name (name : string) : option string :=
  let display_name :=
    if Nat.ltb MAX_REPO_NAME_WIDTH (String.length name)
    then option_map (fun p => sapp p "-...") (slice_to name (MAX_REPO_NAME_WIDTH - 4))
    else Some name in
  option_map (fun d => sapp "[" (sapp (pad_right d MAX_REPO_NAME_WIDTH) "]")) display_name.

Lemma length_sapp (a b : string) : String.length (sapp a b) = String.length a + String.length b.
Proof. unfold sapp. induction a as [|c a IH]; simpl; auto. Qed.

Lemma char_count_sapp (a b : string) : char_count (sapp a b) = char_count a + char_count b.
Proof. unfold sapp. induction a as [|c a IH]; simpl; [reflexivity|]. rewrite IH. lia. Qed.

Lemma sapp_assoc_col (a b c : string) : sapp a (sapp b c) = sapp (sapp a b) c.
Proof. unfold sapp. induction a as [|x a IH]; simpl; [reflexivity|]. rewrite IH. reflexivity. Qed.

Lemma length_spaces (n : nat) : String.length (spaces n) = n.
Proof. induction n; simpl; auto. Qed.

Lemma char_count_spaces (n : nat) : char_count (spaces n) = n.
Proof. induction n; simpl; auto. Qed.

Lemma char_count_le_length (s : string) : char_count s <= String.length s.
Proof. induction s as [|b s IH]; simpl; [lia|]. destruct (is_cont b); lia. Qed.

Lemma ascii_not_cont (b : ascii) : Nat.ltb (nat_of_ascii b) 128 = true -> is_cont b = false.
Proof.
  unfold is_cont. intros H. apply Nat.ltb_lt in H.
  destruct (Nat.leb_spec 128 (nat_of_ascii b)); [lia|reflexivity].
Qed.

Lemma char_count_ascii (s : string) : is_ascii s = true -> char_count s = String.length s.
Proof.
  unfold is_ascii. induction s as [|b s IH]; simpl; [reflexivity|].
  intros H. apply andb_prop in H as [Hb Hs]. rewrite ascii_not_cont by exact Hb.
  rewrite IH by exact Hs. reflexivity.
Qed.

Lemma char_count_take (n : nat) (s : string) : char_count (take n s) = Nat.min n (char_count s).
Proof.
  revert n. induction s as [|b s IH]; intros n; simpl; [lia|].
  destruct (is_cont b) eqn:E.
  - simpl. rewrite E. apply IH.
  - destruct n as [|k]; simpl; rewrite ?E; [reflexivity|]. rewrite IH. reflexivity.
Qed.

Lemma length_take_ascii (n : nat) (s : string) :
  is_ascii s = true -> String.length (take n s) = Nat.min n (String.length s).
Proof.
  unfold is_ascii. revert n. induction s as [|b s IH]; intros n H; simpl; [lia|].
  simpl in H. apply andb_prop in H as [Hb Hs]. rewrite (ascii_not_cont b Hb).
  destruct n as [|k]; simpl; [reflexivity|]. rewrite IH by exact Hs. reflexivity.
Qed.

Lemma length_substring0_le (n : nat) (s : string) :
  String.length (substring 0 n s) <= n.
Proof.
  revert s. induction n as [|n IH]; intros s; [destruct s; simpl; lia|].
  destruct s as [|c s]; simpl; [lia|]. specialize (IH s). lia.
Qed.

Lemma length_substring0 (n : nat) (s : string) :
  n <= String.length s -> String.length (substring 0 n s) = n.
Proof.
  revert s. induction n as [|n IH]; intros s H; [destruct s; reflexivity|].
  destruct s as [|c s]; simpl in *; [lia|]. rewrite IH; lia.
Qed.

Lemma char_count_pad_right (v : string) (w : nat) :
  char_count v <= w -> char_count (pad_right v w) = w.
Proof. intros H. unfold pad_right. rewrite char_count_sapp, char_count_spaces. lia. Qed.

Lemma char_count_format_column (value : string) (width : nat) :
  char_count (format_column value width) =
    (if Nat.ltb width (String.length value)
     then (if Nat.leb width 3 then Nat.min width (char_count value)
           else Nat.min (width - 3) (char_count value) + 3)
     else width).
Proof.
  unfold format_column.
  destruct (Nat.ltb_spec width (String.length value)) as [Hlt|Hge].
  - destruct (Nat.leb_spec width 3) as [Hle|Hgt].
    + apply char_count_take.
    + rewrite char_count_sapp, char_count_take. reflexivity.
  - apply char_count_pad_right. pose proof (char_count_le_length value). lia.
Qed.

Lemma char_count_format_column_le (value : string) (width : nat) :
  char_count (format_column value width) <= width.
Proof.
  rewrite char_count_format_column.
  destruct (Nat.ltb width _); [|lia]. destruct (Nat.leb_spec width 3); lia.
Qed.

Lemma format_column_ascii (value : string) (width : nat) :
  is_ascii value = true ->
  char_count (format_column value width) = width /\ String.length (format_column value width) = width.
Proof.
  intros Ha. rewrite char_count_format_column, (char_count_ascii value Ha).
  unfold format_column.
  destruct (Nat.ltb_spec width (String.length value)) as [Hlt|Hge].
  - destruct (Nat.leb_spec width 3) as [Hle|Hgt].
    + rewrite length_take_ascii by exact Ha. lia.
    + rewrite length_sapp, length_take_ascii by exact Ha. simpl. lia.
  - split; [reflexivity|]. unfold pad_right.
    rewrite length_sapp, length_spaces, (char_count_ascii value Ha). lia.
Qed.

Lemma is_ascii_sapp (a b : string) : is_ascii (sapp a b) = is_ascii a && is_ascii b.
Proof. unfold is_ascii, sapp. induction a as [|c a IH]; simpl; [reflexivity|]. rewrite IH. apply andb_assoc. Qed.

Lemma is_ascii_substring0 (n : nat) (s : string) :
  is_ascii s = true -> is_ascii (substring 0 n s) = true.
Proof.
  unfold is_ascii. revert s. induction n as [|n IH]; intros s H; [destruct s; reflexivity|].
  destruct s as [|c s]; simpl in *; [reflexivity|].
  apply andb_prop in H as [Hc Hs]. rewrite Hc. apply IH, Hs.
Qed.

Lemma is_char_boundary_ascii (s : string) (i : nat) :
  is_ascii s = true -> i <= String.length s -> is_char_boundary s i = true.
Proof.
  unfold is_ascii, is_char_boundary. revert i.
  induction s as [|b s IH]; intros i Ha Hi; simpl in *.
  - destruct i; [reflexivity|lia].
  - apply andb_prop in Ha as [Hb Hs]. destruct i as [|i].
    + rewrite ascii_not_cont by exact Hb. reflexivity.
    + apply IH; [exact Hs|lia].
Qed.

(** [format_column] counts the value's length in bytes but cuts and pads
    it by characters.  The result has [width] characters when the value is
    at most [width] bytes long (it is padded with spaces after it), and
    [min(width - 3, characters) + 3] characters when it is longer and
    [width > 3] (it is cut to [width - 3] characters and "..."); so an
    ASCII value always takes exactly [width] characters and bytes, while a
    value of multi-byte characters can come out narrower. *)
Theorem format_column_width (value : string) (width : nat) :
  char_count (format_column value width) =
    (if Nat.ltb width (String.length value)
     then (if Nat.leb width 3 then Nat.min width (char_count value)
           else Nat.min (width - 3) (char_count value) + 3)
     else width) /\
  char_count (format_column value width) <= width /\
  (is_ascii value = true ->
   char_count (format_column value width) = width /\ String.length (format_column value width) = width) /\
  (String.length value <= width ->
   format_column value width = sapp value (spaces (width - char_count value))) /\
  (3 < width < String.length value -> format_column value width = sapp (take (width - 3) value) "...").
Proof.
  split; [apply char_count_format_column|].
  split; [apply char_count_format_column_le|].
  split; [apply format_column_ascii|].
  unfold format_column.
  destruct (Nat.ltb_spec width (String.length value)) as [Hlt|Hge].
  - destruct (Nat.leb_spec width 3) as [Hle|Hgt].
    + split; intros; lia.
    + split; [intros; lia|reflexivity].
  - split; [reflexivity|intros; lia].
Qed.

(** The name column is never narrower than 4 nor wider than 48, and is the
    longest display name when that lies between the two. *)
Theorem compute_name_width_bounds (names : list string) :
  MIN_REPO_NAME_WIDTH <= compute_name_width names <= MAX_REPO_NAME_WIDTH_CAP /\
  (forall name, In name names -> String.length name <= MAX_REPO_NAME_WIDTH_CAP ->
     String.length name <= compute_name_width names).
Proof.
  unfold compute_name_width, MIN_REPO_NAME_WIDTH, MAX_REPO_NAME_WIDTH_CAP.
  assert (Hmax : forall l m, m <= fold_left (fun m name => Nat.max m (String.length name)) l m /\
            forall name, In name l -> String.length name <= fold_left (fun m name => Nat.max m (String.length name)) l m).
  { induction l as [|x l IH]; intros m; simpl; [split; [lia|tauto]|].
    destruct (IH (Nat.max m (String.length x))) as [H1 H2].
    split; [lia|]. intros name [->|Hin]; [lia|auto]. }
  split; [lia|].
  intros name Hin Hle. destruct (Hmax names 0) as [_ H]. specialize (H name Hin). lia.
Qed.

Lemma format_repo_name_some (name s : string) :
  format_repo_name name = Some s -> char_count s = 26.
Proof.
  unfold format_repo_name, MAX_REPO_NAME_WIDTH, slice_to.
  assert (Hpad : forall d, char_count d <= 24 ->
            char_count (sapp "[" (sapp (pad_right d 24) "]")) = 26).
  { intros d Hd. rewrite !char_count_sapp, char_count_pad_right by exact Hd. reflexivity. }
  destruct (Nat.ltb_spec 24 (String.length name)) as [Hlt|Hge].
  - destruct (is_char_boundary name (24 - 4)); simpl; [|discriminate].
    intros [= <-]. apply Hpad. rewrite char_count_sapp.
    pose proof (char_count_le_length (substring 0 (24 - 4) name)).
    pose proof (length_substring0_le (24 - 4) name). simpl in *. lia.
  - simpl. intros [= <-]. apply Hpad. pose proof (char_count_le_length name). lia.
Qed.

(** fit's [format_repo_name] panics exactly when the name is longer than
    24 bytes and byte 20 falls inside a character ([&name[..20]]); when it
    does not panic the bracketed name is 26 characters wide: a name of at
    most 24 bytes is shown whole and padded with spaces to 24 characters, a
    longer one is cut to its first 20 bytes followed by "-...".  An ASCII
    name never panics and gives 26 bytes. *)
Theorem format_repo_name_width (name : string) :
  (format_repo_name name = None <->
     24 < String.length name /\ is_char_boundary name 20 = false) /\
  (forall s, format_repo_name name = Some s -> char_count s = 26) /\
  (String.length name <= 24 ->
   format_repo_name name = Some (sapp "[" (sapp (sapp name (spaces (24 - char_count name))) "]"))) /\
  (24 < String.length name -> is_char_boundary name 20 = true ->
   format_repo_name name =
     Some (sapp "[" (sapp (sapp (sapp (substring 0 20 name) "-...")
                         (spaces (24 - (char_count (substring 0 20 name) + 4)))) "]"))) /\
  (is_ascii name = true -> exists s, format_repo_name name = Some s /\ String.length s = 26).
Proof.
  split.
  { unfold format_repo_name, MAX_REPO_NAME_WIDTH, slice_to.
    destruct (Nat.ltb_spec 24 (String.length name)) as [Hlt|Hge].
    - simpl. destruct (is_char_boundary name 20); simpl; split.
      + discriminate.
      + intros [_ H]. discriminate H.
      + intros _. split; [exact Hlt|reflexivity].
      + intros _. reflexivity.
    - simpl. split; [discriminate|]. intros [H _]. lia. }
  split; [apply format_repo_name_some|].
  split.
  { intros Hle. unfold format_repo_name, MAX_REPO_NAME_WIDTH.
    destruct (Nat.ltb_spec 24 (String.length name)); [lia|]. reflexivity. }
  split.
  { intros Hlt Hb. unfold format_repo_name, MAX_REPO_NAME_WIDTH, slice_to.
    destruct (Nat.ltb_spec 24 (String.length name)); [|lia]. simpl. rewrite Hb. simpl.
    unfold pad_right. rewrite char_count_sapp. reflexivity. }
  intros Ha.
  assert (Hs : exists s, format_repo_name name = Some s).
  { unfold format_repo_name, MAX_REPO_NAME_WIDTH, slice_to.
    destruct (Nat.ltb_spec 24 (String.length name)); simpl; [|eauto].
    rewrite is_char_boundary_ascii by (assumption || lia). simpl. eauto. }
  destruct Hs as [s Hs]. exists s. split; [exact Hs|].
  revert Hs. unfold format_repo_name, MAX_REPO_NAME_WIDTH, slice_to.
  assert (Hpad : forall d, is_ascii d = true -> String.length d <= 24 ->
            String.length (sapp "[" (sapp (pad_right d 24) "]")) = 26).
  { intros d Hd Hl. unfold pad_right. rewrite !length_sapp, length_spaces, char_count_ascii by exact Hd.
    simpl. lia. }
  destruct (Nat.ltb_spec 24 (String.length name)) as [Hlt|Hge]; simpl.
  - rewrite is_char_boundary_ascii by (assumption || lia). simpl. intros [= <-].
    apply Hpad.
    + rewrite is_ascii_sapp, is_ascii_substring0 by exact Ha. reflexivity.
    + rewrite length_sapp, length_substring0 by lia. simpl. lia.
  - intros [= <-]. apply Hpad; [exact Ha|lia].
Qed.

Example format_column_tests :
  format_column "my-repo" 24 = "my-repo                 " /\
  format_column "exactly-twenty-four-chr!" 24 = "exactly-twenty-four-chr!" /\
  format_column "this-is-a-very-long-repository-name" 24 = "this-is-a-very-long-r...".
Proof. vm_compute. repeat split. Qed.

(** Six CJK characters are 18 bytes: in the 16-wide branch column they are
    cut to 13 characters, all six kept, and "...", 9 characters wide. *)
Example format_column_multibyte :
  String.length "日本語の名前" = 18 /\
  format_column "日本語の名前" 16 = "日本語の名前..." /\
  char_count (format_column "日本語の名前" 16) = 9.
Proof. vm_compute. repeat split. Qed.

Example format_repo_name_tests :
  format_repo_name "my-repo" = Some "[my-repo                 ]" /\
  format_repo_name "this-is-a-very-long-repository-name" = Some "[this-is-a-very-long--...]" /\
  format_repo_name "aéééééééééééé" = None.
Proof. vm_compute. repeat split. Qed.

End Layout.

(** ** The printed line of a live run (rust/src/runner.rs) *)
Module LiveLine.
Import RStr Layout.

(** [cmd.spawn(url_scheme).and_then(|c| c.wait_with_output())]: the output
    or the text of the I/O error. *)
Inductive SpawnResult := Spawned (o : Output) | SpawnError (e : string).

(** [resolve_branch], given the result of running
    [git -C <repo> rev-parse --abbrev-ref HEAD]. *)
Definition resolve_branch (r : SpawnResult) : string :=
  match r with
  | Spawned o =>
      if success o then
        let branch := trim (stdout o) in
        if String.eqb branch "HEAD" then "HEAD (detached)" else branch
      else "unknown"
  | SpawnError _ => "unknown"
  end.

(** The body of the printing loop in [run_parallel] for one target. *)
Definition live_line (format : Output -> FormattedResult) (name_width : nat)
    (name pre_branch : string) (output_result : SpawnResult) : string :=
  let '(branch, message) :=
    match output_result with
    | Spawned output =>
        let fr := format output in
        let branch := if String.eqb (fr_branch fr) "" then pre_branch else fr_branch fr in
        (branch, fr_message fr)
    | SpawnError e => (pre_branch, sapp "ERROR: " e)
    end in
  sapp (format_column name name_width)
       (sapp " | " (sapp (format_column branch MAX_BRANCH_WIDTH_CAP) (sapp " | " message))).

(** Every live line is the name column, " | ", the branch column, " | "
    and the message.  The prefix before the message is at most
    [name_width + 22] characters, and exactly [name_width + 22] characters
    (and bytes) when the name and the branch shown are ASCII.  The branch
    column shows the formatter's branch, or the branch resolved beforehand
    when the formatter leaves it empty or the command could not be run; the
    message is the formatter's, or "ERROR: " and the I/O error. *)
Theorem live_line_layout (format : Output -> FormattedResult) (name_width : nat)
    (name pre_branch : string) (r : SpawnResult) :
  exists branch message prefix,
    live_line format name_width name pre_branch r = sapp prefix message /\
    prefix = sapp (format_column name name_width)
                  (sapp " | " (sapp (format_column branch MAX_BRANCH_WIDTH_CAP) " | ")) /\
    char_count prefix <= name_width + 22 /\
    (is_ascii name = true -> is_ascii branch = true ->
     char_count prefix = name_width + 22 /\ String.length prefix = name_width + 22) /\
    match r with
    | Spawned o =>
        message = fr_message (format o) /\
        branch = (if String.eqb (fr_branch (format o)) "" then pre_branch else fr_branch (format o))
    | SpawnError e => message = sapp "ERROR: " e /\ branch = pre_branch
    end.
Proof.
  assert (Hle : forall branch, char_count (sapp (format_column name name_width)
                  (sapp " | " (sapp (format_column branch MAX_BRANCH_WIDTH_CAP) " | "))) <= name_width + 22).
  { intros branch. rewrite !char_count_sapp.
    pose proof (char_count_format_column_le name name_width).
    pose proof (char_count_format_column_le branch MAX_BRANCH_WIDTH_CAP).
    unfold MAX_BRANCH_WIDTH_CAP in *. simpl. lia. }
  assert (Hascii : forall branch, is_ascii name = true -> is_ascii branch = true ->
            let p := sapp (format_column name name_width)
                       (sapp " | " (sapp (format_column branch MAX_BRANCH_WIDTH_CAP) " | ")) in
            char_count p = name_width + 22 /\ String.length p = name_width + 22).
  { intros branch Hn Hb p. subst p.
    destruct (format_column_ascii name name_width Hn) as [C1 L1].
    destruct (format_column_ascii branch MAX_BRANCH_WIDTH_CAP Hb) as [C2 L2].
    rewrite !char_count_sapp, !length_sapp, C1, C2, L1, L2.
    unfold MAX_BRANCH_WIDTH_CAP. simpl. lia. }
  unfold live_line. destruct r as [o|e].
  - eexists _, _, _. split; [|split; [reflexivity|split; [apply Hle|split; [apply Hascii|split; reflexivity]]]].
    rewrite !sapp_assoc_col. reflexivity.
  - eexists _, _, _. split; [|split; [reflexivity|split; [apply Hle|split; [apply Hascii|split; reflexivity]]]].
    rewrite !sapp_assoc_col. reflexivity.
Qed.

(** [resolve_branch] never shows a bare "HEAD": a detached head is shown as
    "HEAD (detached)", and a failed [rev-parse] or one that could not be
    started as "unknown". *)
Theorem resolve_branch_never_bare_head (r : SpawnResult) :
  resolve_branch r <> "HEAD" /\
  (forall o, r = Spawned o -> success o = false -> resolve_branch r = "unknown") /\
  (forall e, r = SpawnError e -> resolve_branch r = "unknown") /\
  (forall o, r = Spawned o -> success o = true -> trim (stdout o) = "HEAD" ->
     resolve_branch r = "HEAD (detached)").
Proof.
  unfold resolve_branch. destruct r as [o|e].
  - split; [|split; [|split]].
    + destruct (success o); [|discriminate].
      destruct (String.eqb_spec (trim (stdout o)) "HEAD"); [discriminate|assumption].
    + intros o' [= <-] Hs. rewrite Hs. reflexivity.
    + intros e' He. discriminate He.
    + intros o' [= <-] Hs Hh. rewrite Hs, Hh. reflexivity.
  - split; [discriminate|split; [|split]].
    + intros o' Ho. discriminate Ho.
    + intros e' _. reflexivity.
    + intros o' Ho. discriminate Ho.
Qed.

End LiveLine.

(** ** The worker limit of a live run (rust/src/runner.rs) *)
Module Workers.

(** Where one worker thread of [run_parallel] is: before [sem.acquire()],
    between acquire and release (resolving the branch and running git), or
    past [sem.release()]. *)
Inductive Phase := Waiting | Running | Done.

Definition Phase_eq_dec (p q : Phase) : {p = q} + {p <> q}.
Proof. decide equality. Defined.

Definition is_running (p : Phase) : bool :=
  match p with Running => true | _ => false end.

Definition running (ws : list Phase) : nat := length (List.filter is_running ws).

(** [if max_workers > 0 && max_workers < repos.len() { Some(Semaphore::new(max_workers)) } else { None }];
    a semaphore is its [count]. *)
Definition semaphore_for (max_workers n : nat) : option nat :=
  if Nat.ltb 0 max_workers && Nat.ltb max_workers n then Some max_workers else None.

(** One atomic step of one worker: [acquire] (leaves its wait loop only when
    [count] is not 0, then decrements it; no semaphore: no wait) and
    [release] (increments [count]). *)
Inductive step : option nat * list Phase -> option nat * list Phase -> Prop :=
| step_acquire (ws : list Phase) (i c : nat) :
    ws !! i = Some Waiting -> c <> 0 ->
    step (Some c, ws) (Some (c - 1), <[i := Running]> ws)
| step_start (ws : list Phase) (i : nat) :
    ws !! i = Some Waiting ->
    step (None, ws) (None, <[i := Running]> ws)
| step_release (s : option nat) (ws : list Phase) (i : nat) :
    ws !! i = Some Running ->
    step (s, ws) (option_map S s, <[i := Done]> ws).

Inductive reachable (init : option nat * list Phase) : option nat * list Phase -> Prop :=
| reach_init : reachable init init
| reach_step st st' : reachable init st -> step st st' -> reachable init st'.

Definition start (max_workers n : nat) : option nat * list Phase :=
  (semaphore_for max_workers n, repeat Waiting n).

Lemma running_insert (ws : list Phase) (i : nat) (x y : Phase) :
  ws !! i = Some x ->
  running (<[i := y]> ws) + (if is_running x then 1 else 0)
  = running ws + (if is_running y then 1 else 0).
Proof.
  unfold running. revert i. induction ws as [|w ws IH]; intros [|i] H; try discriminate.
  - simpl in H. injection H as ->. simpl.
    destruct (is_running x), (is_running y); simpl; lia.
  - simpl in H. simpl. specialize (IH i H).
    destruct (is_running w); simpl; lia.
Qed.

Lemma running_le_length (ws : list Phase) : running ws <= length ws.
Proof.
  unfold running. induction ws as [|w ws IH]; simpl; [lia|].
  destruct (is_running w); simpl; lia.
Qed.

Definition inv (max_workers n : nat) (st : option nat * list Phase) : Prop :=
  length (snd st) = n /\
  match fst st with
  | Some c => semaphore_for max_workers n = Some max_workers /\ c + running (snd st) = max_workers
  | None => semaphore_for max_workers n = None
  end.

Lemma inv_start (max_workers n : nat) : inv max_workers n (start max_workers n).
Proof.
  unfold inv, start. simpl. split; [apply repeat_length|].
  destruct (semaphore_for max_workers n) eqn:E; [|reflexivity].
  unfold semaphore_for in E.
  destruct (Nat.ltb 0 max_workers && Nat.ltb max_workers n); [|discriminate].
  injection E as <-. split; [reflexivity|]. unfold running.
  assert (Hz : forall k, List.filter is_running (repeat Waiting k) = []).
  { induction k; simpl; auto. }
  rewrite Hz. simpl. lia.
Qed.

Lemma inv_step (max_workers n : nat) st st' :
  inv max_workers n st -> step st st' -> inv max_workers n st'.
Proof.
  unfold inv. intros [Hl Hc] Hs. destruct Hs as [ws i c Hi Hc0|ws i Hi|s ws i Hi]; simpl in *.
  - split; [rewrite length_insert; assumption|].
    pose proof (running_insert ws i Waiting Running Hi) as R. simpl in R.
    destruct Hc as [Hsem Hc]. split; [assumption|lia].
  - split; [rewrite length_insert; assumption|assumption].
  - split; [rewrite length_insert; assumption|].
    pose proof (running_insert ws i Running Done Hi) as R. simpl in R.
    destruct s; simpl in *; [destruct Hc as [Hsem Hc]; split; [assumption|lia]|assumption].
Qed.

Lemma inv_reachable (max_workers n : nat) st :
  reachable (start max_workers n) st -> inv max_workers n st.
Proof.
  induction 1; [apply inv_start|]. eapply inv_step; eassumption.
Qed.

(** Whatever the interleaving of the worker threads, no more than
    [max_workers] of them (when it is not 0) run git at the same time, and
    never more than there are repositories. *)
Theorem at_most_max_workers_run (max_workers n : nat) st :
  reachable (start max_workers n) st ->
  running (snd st) <= n /\ (0 < max_workers -> running (snd st) <= max_workers).
Proof.
  intros Hr. destruct (inv_reachable _ _ _ Hr) as [Hl Hc].
  pose proof (running_le_length (snd st)) as Hle. rewrite Hl in Hle.
  split; [assumption|]. intros Hpos.
  destruct (fst st) as [c|].
  - lia.
  - unfold semaphore_for in Hc.
    destruct (Nat.ltb_spec 0 max_workers); [|lia].
    destruct (Nat.ltb_spec max_workers n); [discriminate|]. lia.
Qed.

Lemma at_most_max_workers_run_witness :
  reachable (start 2 3) (Some 1, [Running; Waiting; Waiting]) /\
  running [Running; Waiting; Waiting] <= 3 /\
  (0 < 2 -> running [Running; Waiting; Waiting] <= 2).
Proof.
  assert (H : reachable (start 2 3) (Some 1, [Running; Waiting; Waiting])).
  { apply (reach_step _ (start 2 3)); [apply reach_init|].
    exact (step_acquire (repeat Waiting 3) 0 2 eq_refl ltac:(lia)). }
  split; [exact H|]. exact (at_most_max_workers_run 2 3 _ H).
Defined.

(** The semaphore never deadlocks: while some worker has not released, some
    worker can take a step (a running one can release; if none is running,
    all permits are free and a waiting one can acquire). *)
Theorem workers_never_stuck (max_workers n : nat) st :
  reachable (start max_workers n) st ->
  (exists i p, snd st !! i = Some p /\ p <> Done) ->
  exists st', step st st'.
Proof.
  intros Hr [i [p [Hi Hp]]]. destruct (inv_reachable _ _ _ Hr) as [Hl Hc].
  destruct st as [s ws]. simpl in *.
  destruct (In_dec Phase_eq_dec Running ws) as [Hin|Hnone].
  - apply list_elem_of_In, list_elem_of_lookup in Hin as [j Hj].
    eexists. apply (step_release s ws j Hj).
  - destruct p; [|exfalso; apply Hnone; apply list_elem_of_In, list_elem_of_lookup; eauto|contradiction].
    destruct s as [c|].
    + assert (Hz : running ws = 0).
      { unfold running. destruct (List.filter is_running ws) as [|q l] eqn:E; [reflexivity|].
        exfalso. assert (Hq : In q (List.filter is_running ws)) by (rewrite E; left; reflexivity).
        apply filter_In in Hq as [Hq Hrq]. destruct q; try discriminate. contradiction. }
      destruct Hc as [Hsem Hc]. unfold semaphore_for in Hsem.
      destruct (Nat.ltb_spec 0 max_workers); [|discriminate].
      eexists. apply (step_acquire ws i c Hi). lia.
    + eexists. apply (step_start ws i Hi).
Qed.

Lemma workers_never_stuck_witness :
  reachable (start 2 3) (Some 1, [Running; Waiting; Waiting]) /\
  (exists i p, [Running; Waiting; Waiting] !! i = Some p /\ p <> Done) /\
  exists st', step (Some 1, [Running; Waiting; Waiting]) st'.
Proof.
  assert (H : reachable (start 2 3) (Some 1, [Running; Waiting; Waiting])).
  { apply (reach_step _ (start 2 3)); [apply reach_init|].
    exact (step_acquire (repeat Waiting 3) 0 2 eq_refl ltac:(lia)). }
  assert (Hp : exists i p, [Running; Waiting; Waiting] !! i = Some p /\ p <> Done).
  { exists 1, Waiting. split; [reflexivity|discriminate]. }
  split; [exact H|]. split; [exact Hp|].
  exact (workers_never_stuck 2 3 _ H Hp).
Defined.

End Workers.

(** ** Alias dispatch of an external subcommand (rust/src/main.rs) *)
Module Alias.
Import RStr.

Fixpoint take_word (s : string) : string :=
  match s with
  | EmptyString => EmptyString
  | String c r => if is_ws c then EmptyString else String c (take_word r)
  end.

(** [s.split_whitespace().next()] *)
Definition first_word (s : string) : option string :=
  match trim_start s with
  | EmptyString => None
  | t => Some (take_word t)
  end.

(** [optimized_command_for] *)
Definition optimized_command_for (alias_value : string) : option string :=
  match first_word alias_value with
  | None => None
  | Some first_word =>
      if String.eqb first_word "status" then Some "status"
      else if String.eqb first_word "pull" then Some "pull"
      else if String.eqb first_word "fetch" then Some "fetch"
      else None
  end.

Definition in_range (b : ascii) (lo hi : nat) : bool :=
  Nat.leb lo (nat_of_ascii b) && Nat.leb (nat_of_ascii b) hi.

(** Whether a byte sequence is well-formed UTF-8 (the check of
    [String::from_utf8]): shortest encodings only, no surrogates, nothing
    above U+10FFFF. *)
Fixpoint valid_utf8_bytes (l : list ascii) : bool :=
  match l with
  | [] => true
  | b :: r =>
      if Nat.ltb (nat_of_ascii b) 128 then valid_utf8_bytes r
      else if in_range b 194 223 then
        match r with
        | b1 :: r1 => in_range b1 128 191 && valid_utf8_bytes r1
        | _ => false
        end
      else if in_range b 224 239 then
        match r with
        | b1 :: b2 :: r2 =>
            (if Nat.eqb (nat_of_ascii b) 224 then in_range b1 160 191
             else if Nat.eqb (nat_of_ascii b) 237 then in_range b1 128 159
             else in_range b1 128 191)
            && in_range b2 128 191 && valid_utf8_bytes r2
        | _ => false
        end
      else if in_range b 240 244 then
        match r with
        | b1 :: b2 :: b3 :: r3 =>
            (if Nat.eqb (nat_of_ascii b) 240 then in_range b1 144 191
             else if Nat.eqb (nat_of_ascii b) 244 then in_range b1 128 143
             else in_range b1 128 191)
            && in_range b2 128 191 && in_range b3 128 191 && valid_utf8_bytes r3
        | _ => false
        end
      else false
  end.

Definition valid_utf8 (s : string) : bool := valid_utf8_bytes (list_ascii_of_string s).

(** [resolve_git_alias], given the result of [git config --get alias.<name>]
    ([None] when git could not be run); [stdout] holds the raw bytes, and
    [String::from_utf8(output.stdout).ok()?] gives up on invalid UTF-8. *)
Definition resolve_git_alias (config_output : option Output) : option string :=
  match config_output with
  | None => None
  | Some o =>
      if negb (success o) then None
      else if negb (valid_utf8 (stdout o)) then None
      else
        let trimmed := trim (stdout o) in
        if String.eqb trimmed "" then None else Some trimmed
  end.

(** Where [Some(Commands::External(args))] goes. *)
Inductive Dispatch :=
| RunStatus (a : list string)
| RunPull (a : list string)
| RunFetch (a : list string)
| RunPassthrough (a : list string).

(** The [External] arm of [main]; [None] is the panic of [args[0]] on an
    empty list (clap never produces one). *)
Definition dispatch_external (git_config : string -> option Output) (args : list string)
    : option Dispatch :=
  match args with
  | [] => None
  | a0 :: rest =>
      let resolved :=
        match resolve_git_alias (git_config a0) with
        | Some v => optimized_command_for v
        | None => None
        end in
      Some (match resolved with
            | Some c =>
                if String.eqb c "status" then RunStatus rest
                else if String.eqb c "pull" then RunPull rest
                else if String.eqb c "fetch" then RunFetch rest
                else RunPassthrough args
            | None => RunPassthrough args
            end)
  end.

(** [passthrough::run]: [Err] (nothing run) for an empty argument list,
    otherwise [run_parallel] with [GitCommand::new(repo, args)]. *)
Definition passthrough_run (args : list string) (repos : list string)
    : option (list Runner.GitCommand) :=
  if is_empty args then None
  else Some (map (fun repo => Runner.GitCommand_new repo args) repos).

Lemma trim_start_split (s : string) :
  s = sapp (string_of_list_ascii (List.firstn (String.length s - String.length (trim_start s))
                                                (list_ascii_of_string s))) (trim_start s) /\
  Blank.all_ws (string_of_list_ascii (List.firstn (String.length s - String.length (trim_start s))
                                                    (list_ascii_of_string s))) = true.
Proof.
  induction s as [|c r [IH1 IH2]]; [split; reflexivity|]. simpl.
  destruct (is_ws c) eqn:Hc.
  - assert (Hle : String.length (trim_start r) <= String.length r).
    { clear. induction r as [|d r IH]; simpl; [lia|]. destruct (is_ws d); simpl; lia. }
    replace (S (String.length r) - String.length (trim_start r))
      with (S (String.length r - String.length (trim_start r))) by lia.
    simpl. split.
    + unfold sapp in *. simpl. f_equal. exact IH1.
    + unfold Blank.all_ws in *. simpl. rewrite list_ascii_of_string_of_list_ascii in *.
      rewrite Hc. exact IH2.
  - rewrite Nat.sub_diag. split; reflexivity.
Qed.

Lemma take_word_split (t : string) :
  exists rest, t = sapp (take_word t) rest /\
               (rest = "" \/ exists d r, rest = String d r /\ is_ws d = true).
Proof.
  induction t as [|c r [rest [IH1 IH2]]]; [exists ""; split; [reflexivity|left; reflexivity]|].
  simpl. destruct (is_ws c) eqn:Hc.
  - exists (String c r). split; [reflexivity|right; eauto].
  - exists rest. split; [|assumption]. unfold sapp in *. simpl. f_equal. exact IH1.
Qed.

Lemma optimized_command_for_known (v c : string) :
  optimized_command_for v = Some c -> c = "status" \/ c = "pull" \/ c = "fetch".
Proof.
  unfold optimized_command_for. destruct (first_word v) as [w|]; [|discriminate].
  destruct (String.eqb w "status"); [intros [= <-]; auto|].
  destruct (String.eqb w "pull"); [intros [= <-]; auto|].
  destruct (String.eqb w "fetch"); [intros [= <-]; auto|discriminate].
Qed.

(** An alias counts as one of the three optimized commands only through its
    first whitespace-separated word: the value is some whitespace, the
    command name, then nothing or whitespace and anything.  A shell alias
    (a value starting with '!') is never optimized. *)
Theorem optimized_command_first_word (alias_value c : string) :
  (optimized_command_for alias_value = Some c ->
   (c = "status" \/ c = "pull" \/ c = "fetch") /\
   exists pre rest,
     alias_value = sapp pre (sapp c rest) /\ Blank.all_ws pre = true /\
     (rest = "" \/ exists d r, rest = String d r /\ is_ws d = true)) /\
  (forall r, optimized_command_for (String "!" r) = None).
Proof.
  split.
  - unfold optimized_command_for, first_word. intros H.
    destruct (trim_start_split alias_value) as [Hs Hws].
    destruct (trim_start alias_value) as [|d t] eqn:Ht; [discriminate|].
    destruct (take_word_split (String d t)) as [rest [Hr Hrest]].
    set (w := take_word (String d t)) in *.
    assert (Hc : w = c /\ (c = "status" \/ c = "pull" \/ c = "fetch")).
    { destruct (String.eqb_spec w "status") as [E|_]; [injection H as <-; auto|].
      destruct (String.eqb_spec w "pull") as [E|_]; [injection H as <-; auto|].
      destruct (String.eqb_spec w "fetch") as [E|_]; [injection H as <-; auto|discriminate]. }
    destruct Hc as [<- Hc]. split; [exact Hc|].
    eexists _, rest. split; [|split; [exact Hws|exact Hrest]].
    rewrite Hs at 1. f_equal. exact Hr.
  - intros r. reflexivity.
Qed.

(** The table of [optimized_command_for_resolves_aliases]. *)
Example optimized_command_for_tests :
  optimized_command_for "status" = Some "status" /\
  optimized_command_for "status -sb" = Some "status" /\
  optimized_command_for "pull --rebase" = Some "pull" /\
  optimized_command_for "fetch --all" = Some "fetch" /\
  optimized_command_for "!git log --oneline" = None /\
  optimized_command_for "log --oneline" = None /\
  optimized_command_for "" = None.
Proof. repeat split; reflexivity. Qed.

(** An external subcommand runs one of the optimized commands with the
    alias name dropped when git reports an alias whose first word is that
    command, and otherwise (no alias, or an alias whose first word is not
    one of the three) is passed through with all its arguments; so
    the passthrough it reaches always has a git command to run and never
    fails with "No git command specified". *)
Theorem external_dispatch (git_config : string -> option Output)
    (a0 : string) (rest repos : list string) :
  match dispatch_external git_config (a0 :: rest) with
  | Some (RunStatus a) => a = rest /\ exists v, resolve_git_alias (git_config a0) = Some v /\
                                               optimized_command_for v = Some "status"
  | Some (RunPull a) => a = rest /\ exists v, resolve_git_alias (git_config a0) = Some v /\
                                             optimized_command_for v = Some "pull"
  | Some (RunFetch a) => a = rest /\ exists v, resolve_git_alias (git_config a0) = Some v /\
                                              optimized_command_for v = Some "fetch"
  | Some (RunPassthrough a) =>
      a = a0 :: rest /\
      passthrough_run a repos = Some (map (fun repo => Runner.GitCommand_new repo (a0 :: rest)) repos) /\
      (forall v, resolve_git_alias (git_config a0) = Some v -> optimized_command_for v = None)
  | None => False
  end.
Proof.
  unfold dispatch_external.
  destruct (resolve_git_alias (git_config a0)) as [v|] eqn:Ev.
  - destruct (optimized_command_for v) as [c|] eqn:Ec.
    + destruct (optimized_command_for_known v c Ec) as [ -> | [ -> | -> ] ]; simpl; eauto.
    + split; [reflexivity|]. split; [reflexivity|]. intros v' [= <-]. exact Ec.
  - split; [reflexivity|]. split; [reflexivity|]. intros v' E. discriminate E.
Qed.

(** [git config] printing bytes that are not UTF-8 (here a lone 0xFF
    before "status") gives no alias, so the command is passed through. *)
Example resolve_git_alias_invalid_utf8 :
  resolve_git_alias (Some (mkOutput true (String (ascii_of_nat 255) "status") "")) = None /\
  resolve_git_alias (Some (mkOutput true " status -sb
" "")) = Some "status -sb" /\
  valid_utf8 "aé日" = true.
Proof. vm_compute. repeat split. Qed.

End Alias.

(** ** What the formatters always produce *)
Module FormatterFacts.
Import RStr.

Lemma find_first_some {A} (p : A -> bool) (l : list A) (x : A) :
  find_first p l = Some x -> p x = true /\ In x l.
Proof.
  induction l as [|y l IH]; simpl; [discriminate|].
  destruct (p y) eqn:Hy; [intros [= <-]; auto|]. intros H. destruct (IH H); auto.
Qed.

(** The trimmed form of a non-blank line is not empty. *)
Lemma trim_nonblank (l : string) : is_blank l = false -> trim l <> "".
Proof. unfold is_blank. intros H E. rewrite E in H. discriminate. Qed.

(** A successful passthrough or pull never reports an empty message: it is
    a non-blank line trimmed, a fixed phrase or (passthrough) "ERROR: " and
    a reason; the branch column of a passthrough is always left to the
    branch resolved before the run. *)
Theorem passthrough_message_nonempty (o : Output) :
  fr_message (Passthrough.format o) <> "" /\ fr_branch (Passthrough.format o) = "".
Proof.
  unfold Passthrough.format. destruct (success o); simpl; split; try reflexivity.
  - destruct (find_first _ _) as [l|] eqn:E; simpl; [|discriminate].
    apply find_first_some in E as [E _]. apply trim_nonblank. destruct (is_blank l); [discriminate|reflexivity].
  - discriminate.
Qed.

Theorem pull_success_message_nonempty (o : Output) :
  success o = true -> Pull.format o <> "".
Proof.
  intros Hs. unfold Pull.format. rewrite Hs. simpl.
  destruct (contains (stdout o) "Already up to date"); [discriminate|].
  destruct (find_first (fun l => contains l "files changed") _) as [l|] eqn:E1.
  { apply find_first_some in E1 as [E1 _]. apply trim_nonblank.
    exact (Blank.contains_not_blank l "f" "iles changed" eq_refl E1). }
  destruct (find_first (fun l => contains l ".." || contains l "Updating") _) as [l|] eqn:E2.
  { apply find_first_some in E2 as [E2 _]. apply trim_nonblank.
    apply orb_true_iff in E2 as [E2|E2].
    - exact (Blank.contains_not_blank l "." "." eq_refl E2).
    - exact (Blank.contains_not_blank l "U" "pdating" eq_refl E2). }
  destruct (find_first (fun l => negb (is_blank l)) _) as [l|] eqn:E3; simpl; [|discriminate].
  apply find_first_some in E3 as [E3 _]. apply trim_nonblank.
  destruct (is_blank l); [discriminate|reflexivity].
Qed.

Lemma pull_success_message_nonempty_witness :
  success (mkOutput true "Updating 1a2b..3c4d" "") = true /\
  Pull.format (mkOutput true "Updating 1a2b..3c4d" "") <> "".
Proof.
  split; [reflexivity|]. apply pull_success_message_nonempty. reflexivity.
Defined.

(** Both versions of the fetch formatter of a successful run, and the
    git-all one always, report a non-empty message. *)
Theorem fetch_message_nonempty (o : Output) :
  Fetch.format_all o <> "" /\ (success o = true -> Fetch.format_fit o <> "").
Proof.
  assert (Hu : forall s, sapp s " updated" <> "").
  { intros [|c s]; discriminate. }
  split.
  - unfold Fetch.format_all. destruct (success o); simpl; [|discriminate].
    destruct (is_empty _ && is_empty _); [discriminate|].
    destruct (is_empty (List.filter Fetch.is_update _)); simpl; [discriminate|].
    destruct (is_empty _); simpl; [discriminate|apply Hu].
  - intros Hs. unfold Fetch.format_fit. rewrite Hs. simpl.
    destruct (_ || _); simpl; [|discriminate].
    destruct (fold_left _ _ _) as [b t].
    destruct (Z.ltb 0 b || Z.ltb 0 t); [apply Hu|discriminate].
Qed.

(** [StatusFormatter::format] can only panic on a "## " header line: when
    it panics the run succeeded and some line of the output is a header that
    [parse_branch_line] panics on.  A successful status output with no
    header never panics, reports the empty branch (so the live line shows
    the branch resolved before the run) and no commits ahead or behind. *)
Theorem status_without_header (o : Output) :
  (Status.format o = None ->
   success o = true /\
   exists l, In l (lines (stdout o)) /\ starts_with l "## " = true /\
             Status.parse_branch_line l = None) /\
  (success o = true ->
   Forall (fun l => starts_with l "## " = false) (lines (stdout o)) ->
   exists c, Status.format o = Some (mkFormatted "" (Status.render c)) /\
             Status.branch c = "" /\ Status.ahead c = 0%N /\ Status.behind c = 0%N).
Proof.
  assert (Hstep : forall c l, starts_with l "## " = false ->
            exists c', Status.line_step c l = Some c' /\ Status.branch c' = Status.branch c /\
                       Status.ahead c' = Status.ahead c /\ Status.behind c' = Status.behind c).
  { intros c l Hh. unfold Status.line_step. rewrite Hh.
    destruct (Nat.ltb _ 2); [eauto|].
    destruct (Ascii.eqb (Status.nth_char l 0) "?"); [eexists; split; [reflexivity|auto]|].
    eexists; split; [reflexivity|].
    destruct (Ascii.eqb (Status.nth_char l 0) "M"), (Ascii.eqb (Status.nth_char l 0) "A"),
             (Ascii.eqb (Status.nth_char l 0) "D"), (Ascii.eqb (Status.nth_char l 0) "R"),
             (Ascii.eqb (Status.nth_char l 0) " "), (Ascii.eqb (Status.nth_char l 1) "M"),
             (Ascii.eqb (Status.nth_char l 1) "D"); simpl; auto. }
  split.
  - unfold Status.format. destruct (success o) eqn:Hs; simpl; [|discriminate].
    intros Hn. split; [reflexivity|].
    destruct (Status.count_lines Status.init (lines (stdout o))) eqn:Hc; [discriminate|].
    clear Hn. revert Hc. generalize Status.init.
    induction (lines (stdout o)) as [|l ls IH]; intros c Hc; simpl in Hc; [discriminate|].
    destruct (Status.line_step c l) as [c'|] eqn:Hl.
    + destruct (IH c' Hc) as [l' [Hin Hl']]. exists l'. split; [right; exact Hin|exact Hl'].
    + exists l. split; [left; reflexivity|].
      destruct (starts_with l "## ") eqn:Hh.
      * split; [reflexivity|]. unfold Status.line_step in Hl. rewrite Hh in Hl.
        destruct (Status.parse_branch_line l) as [[[b a] bh]|]; [discriminate|reflexivity].
      * destruct (Hstep c l Hh) as [c' [E _]]. congruence.
  - intros Hs Hl. unfold Status.format. rewrite Hs. simpl.
    assert (Hall : forall ls c, Forall (fun l => starts_with l "## " = false) ls ->
              exists c', Status.count_lines c ls = Some c' /\ Status.branch c' = Status.branch c /\
                         Status.ahead c' = Status.ahead c /\ Status.behind c' = Status.behind c).
    { induction ls as [|l ls IH]; intros c Hf; simpl; [eauto|].
      inversion Hf as [|? ? Hh Hr]; subst.
      destruct (Hstep c l Hh) as [c' [-> [E1 [E2 E3]]]].
      destruct (IH c' Hr) as [c'' [-> [F1 [F2 F3]]]].
      exists c''. repeat split; congruence. }
    destruct (Hall _ Status.init Hl) as [c [-> [E1 [E2 E3]]]].
    exists c. rewrite E1. simpl. auto.
Qed.

Lemma status_without_header_witness :
  let o := mkOutput true " M src/main.rs
?? notes.txt
" "" in
  success o = true /\
  Forall (fun l => starts_with l "## " = false) (lines (stdout o)) /\
  exists c, Status.format o = Some (mkFormatted "" (Status.render c)) /\
            Status.branch c = "" /\ Status.ahead c = 0%N /\ Status.behind c = 0%N.
Proof.
  intros o.
  assert (Hs : success o = true) by reflexivity.
  assert (Hl : Forall (fun l => starts_with l "## " = false) (lines (stdout o))).
  { vm_compute. repeat constructor. }
  split; [exact Hs|]. split; [exact Hl|]. exact (proj2 (status_without_header o) Hs Hl).
Defined.

End FormatterFacts.

(** ** The collector of fit (fit-rust/src/runner.rs)

    fit's [run_parallel] keeps a received result in its slot when it prints
    it ([if let Some((ref repo_path, ref res)) = results[next_to_print]])
    where git-all's [take()]s it. *)
Module FitCollector.

Section Fit.
Variable A : Type.
Variable print_line : A -> string.

Fixpoint drain_fit (fuel : nat) (results : list (option A)) (next : nat)
    (out : list (nat * string)) : CState A :=
  match fuel with
  | 0 => (results, next, out)
  | S f =>
      if Nat.ltb next (length results) then
        match results !! next with
        | Some (Some v) => drain_fit f results (S next) (app out [(next, print_line v)])
        | _ => (results, next, out)
        end
      else (results, next, out)
  end.

Definition receive_fit (st : CState A) (msg : nat * A) : option (CState A) :=
  let '(results, next, out) := st in
  let '(idx, v) := msg in
  if Nat.ltb idx (length results) then
    let results := <[idx := Some v]> results in
    Some (drain_fit (length results - next) results next out)
  else None.

Fixpoint collect_from_fit (st : CState A) (msgs : list (nat * A)) : option (CState A) :=
  match msgs with
  | [] => Some st
  | m :: r => match receive_fit st m with
              | Some st' => collect_from_fit st' r
              | None => None
              end
  end.

Definition collect_fit (n : nat) (msgs : list (nat * A)) : option (list (nat * string)) :=
  option_map (fun st : CState A => let '(_, _, out) := st in out)
             (collect_from_fit (replicate n None, 0, []) msgs).

(** The two collectors' states agree from the cursor on. *)
Definition agree (st1 st2 : CState A) : Prop :=
  let '(r1, n1, o1) := st1 in
  let '(r2, n2, o2) := st2 in
  n1 = n2 /\ o1 = o2 /\ length r1 = length r2 /\ forall i, n1 <= i -> r1 !! i = r2 !! i.

Lemma drain_agree (fuel : nat) (r1 r2 : list (option A)) (next : nat) (out : list (nat * string)) :
  agree (r1, next, out) (r2, next, out) ->
  agree (drain print_line fuel r1 next out) (drain_fit fuel r2 next out).
Proof.
  revert r1 r2 next out. induction fuel as [|f IH]; intros r1 r2 next out Hag; simpl; [exact Hag|].
  destruct Hag as [_ [_ [Hlen Hi]]]. rewrite Hlen.
  destruct (Nat.ltb next (length r2)) eqn:Hn; [|repeat split; auto].
  rewrite (Hi next (le_n _)).
  destruct (r2 !! next) as [[v|]|] eqn:Hv; [|repeat split; auto|repeat split; auto].
  apply IH. repeat split; auto.
  - rewrite length_insert. exact Hlen.
  - intros i Hle. rewrite list_lookup_insert_ne by lia. apply Hi. lia.
Qed.

Lemma receive_agree (st1 st2 : CState A) (m : nat * A) :
  agree st1 st2 ->
  match receive print_line st1 m, receive_fit st2 m with
  | Some st1', Some st2' => agree st1' st2'
  | None, None => True
  | _, _ => False
  end.
Proof.
  destruct st1 as [[r1 n1] o1], st2 as [[r2 n2] o2], m as [idx v].
  intros [-> [-> [Hlen Hi]]]. simpl. rewrite Hlen.
  destruct (Nat.ltb idx (length r2)) eqn:Hidx; [|exact I].
  rewrite !length_insert, <- Hlen. apply drain_agree. repeat split.
  - rewrite !length_insert. exact Hlen.
  - intros i Hle. destruct (decide (idx = i)) as [<-|Hne].
    + apply Nat.ltb_lt in Hidx.
      rewrite !list_lookup_insert_eq by lia. reflexivity.
    + rewrite !list_lookup_insert_ne by exact Hne. apply Hi. exact Hle.
Qed.

Lemma collect_from_agree (msgs : list (nat * A)) (st1 st2 : CState A) :
  agree st1 st2 ->
  match collect_from print_line st1 msgs, collect_from_fit st2 msgs with
  | Some st1', Some st2' => agree st1' st2'
  | None, None => True
  | _, _ => False
  end.
Proof.
  revert st1 st2. induction msgs as [|m msgs IH]; intros st1 st2 Hag; simpl; [exact Hag|].
  pose proof (receive_agree st1 st2 m Hag) as H.
  destruct (receive print_line st1 m), (receive_fit st2 m); try contradiction; [|exact I].
  apply IH. exact H.
Qed.

End Fit.

Arguments collect_fit {A} print_line n msgs.

(** Not taking a printed result out of its slot changes nothing: for every
    arrival order of the results, fit's collector prints exactly the lines
    git-all's collector prints, and panics exactly when it panics. *)
Theorem fit_collect_same_as_all {A} (print_line : A -> string) (n : nat) (msgs : list (nat * A)) :
  collect_fit print_line n msgs = collect print_line n msgs.
Proof.
  unfold collect_fit, collect.
  assert (H0 : agree A (replicate n None, 0, []) (replicate n None, 0, [])).
  { repeat split; auto. }
  pose proof (collect_from_agree A print_line msgs _ _ H0) as H.
  destruct (collect_from print_line _ msgs) as [[[r1 n1] o1]|],
           (collect_from_fit A print_line _ msgs) as [[[r2 n2] o2]|];
    try contradiction; [|reflexivity].
  destruct H as [_ [-> _]]. reflexivity.
Qed.

End FitCollector.

(** ** Reading the branch header back (rust/src/commands/status.rs) *)
Module BranchLine.
Import RStr.

Fixpoint no_char (ch : ascii) (s : string) : bool :=
  match s with
  | EmptyString => true
  | String c r => negb (Ascii.eqb c ch) && no_char ch r
  end.

Definition is_digit (c : ascii) : bool :=
  Nat.leb 48 (nat_of_ascii c) && Nat.leb (nat_of_ascii c) 57.

Fixpoint all_digits (s : string) : bool :=
  match s with
  | EmptyString => true
  | String c r => is_digit c && all_digits r
  end.

Lemma sapp_assoc (a b c : string) : sapp a (sapp b c) = sapp (sapp a b) c.
Proof. unfold sapp. induction a as [|x a IH]; simpl; [reflexivity|]. rewrite IH. reflexivity. Qed.

Lemma sapp_nil_r (a : string) : sapp a "" = a.
Proof. unfold sapp. induction a as [|x a IH]; simpl; [reflexivity|]. rewrite IH. reflexivity. Qed.

Lemma sapp_length (a b : string) : String.length (sapp a b) = String.length a + String.length b.
Proof. unfold sapp. induction a as [|x a IH]; simpl; [reflexivity|]. rewrite IH. reflexivity. Qed.

Lemma digit_ascii (n : nat) : is_digit (ascii_of_nat (48 + n mod 10)) = true.
Proof.
  unfold is_digit. rewrite nat_ascii_embedding.
  - pose proof (Nat.mod_upper_bound n 10). apply andb_true_iff; split; apply Nat.leb_le; lia.
  - pose proof (Nat.mod_upper_bound n 10). lia.
Qed.

Lemma all_digits_app (a b : string) :
  all_digits (sapp a b) = all_digits a && all_digits b.
Proof. unfold sapp. induction a as [|x a IH]; simpl; [reflexivity|]. rewrite IH, andb_assoc. reflexivity. Qed.

Lemma digits_aux_shape (f n : nat) (acc : string) :
  exists d, digits_aux f n acc = sapp d acc /\ all_digits d = true.
Proof.
  revert n acc. induction f as [|f IH]; intros n acc; cbn [digits_aux]; [exists ""; auto|].
  pose proof (digit_ascii n) as Hch.
  set (ch := ascii_of_nat (48 + n mod 10)) in *. clearbody ch.
  destruct (Nat.ltb n 10).
  - exists (String ch ""). split; [reflexivity|].
    cbn [all_digits]. rewrite Hch. reflexivity.
  - destruct (IH (n / 10) (String ch acc)) as [d [-> Hd]].
    exists (sapp d (String ch "")).
    rewrite <- sapp_assoc. split; [reflexivity|].
    rewrite all_digits_app, Hd. cbn [all_digits]. rewrite Hch. reflexivity.
Qed.

(** [format!("{}", n)] is one or more decimal digits. *)
Lemma fmt_nat_shape (n : nat) :
  exists d e, fmt_nat n = sapp d (String e "") /\ all_digits d = true /\ is_digit e = true.
Proof.
  unfold fmt_nat. cbn [digits_aux].
  pose proof (digit_ascii n) as Hch.
  set (ch := ascii_of_nat (48 + n mod 10)) in *. clearbody ch.
  destruct (Nat.ltb n 10).
  - exists "", ch. auto.
  - destruct (digits_aux_shape n (n / 10) (String ch "")) as [d [-> Hd]].
    exists d, ch. auto.
Qed.

Lemma digits_value_digits (f n : nat) (acc : string) :
  n < f -> (N.of_nat n < 2 ^ 64)%N ->
  digits_value (digits_aux f n acc) 0 = digits_value acc (N.of_nat n).
Proof.
  revert n acc. induction f as [|f IH]; intros n acc Hf Hn; [lia|]. cbn [digits_aux].
  pose proof (Nat.mod_upper_bound n 10) as Hm.
  assert (Hd : nat_of_ascii (ascii_of_nat (48 + n mod 10)) = 48 + n mod 10)
    by (apply nat_ascii_embedding; lia).
  destruct (Nat.ltb_spec n 10).
  - cbn [digits_value]. rewrite Hd.
    replace (Nat.leb 48 (48 + n mod 10) && Nat.leb (48 + n mod 10) 57) with true
      by (symmetry; apply andb_true_iff; split; apply Nat.leb_le; lia).
    rewrite Nat.mod_small by lia.
    replace (48 + n - 48) with n by lia.
    replace (0 * 10 + N.of_nat n)%N with (N.of_nat n) by lia.
    apply N.ltb_lt in Hn. rewrite Hn. reflexivity.
  - rewrite IH; [|apply Nat.lt_le_trans with n; [apply Nat.div_lt; lia|lia]|].
    + cbn [digits_value]. rewrite Hd.
      replace (Nat.leb 48 (48 + n mod 10) && Nat.leb (48 + n mod 10) 57) with true
        by (symmetry; apply andb_true_iff; split; apply Nat.leb_le; lia).
      replace (48 + n mod 10 - 48) with (n mod 10) by lia.
      replace (N.of_nat (n / 10) * 10 + N.of_nat (n mod 10))%N with (N.of_nat n).
      * apply N.ltb_lt in Hn. rewrite Hn. reflexivity.
      * rewrite (Nat.div_mod_eq n 10) at 1. lia.
    + assert (n / 10 < n) by (apply Nat.div_lt; lia). lia.
Qed.

Lemma parse_usize_digit (c : ascii) (r : string) :
  is_digit c = true -> parse_usize (String c r) = digits_value (String c r) 0%N.
Proof. destruct c as [[] [] [] [] [] [] [] []]; try discriminate; reflexivity. Qed.

(** [usize::from_str] reads back what [format!("{}", n)] prints. *)
Lemma parse_fmt_nat (n : nat) :
  (N.of_nat n < 2 ^ 64)%N -> parse_usize (fmt_nat n) = Some (N.of_nat n).
Proof.
  intros Hn.
  assert (Hv : digits_value (fmt_nat n) 0 = Some (N.of_nat n)).
  { unfold fmt_nat. rewrite digits_value_digits by (lia || exact Hn). reflexivity. }
  assert (Hc : exists c r, fmt_nat n = String c r /\ is_digit c = true).
  { destruct (fmt_nat_shape n) as [d [e [Hs [Hd He]]]]. rewrite Hs.
    destruct d as [|c d]; [exists e, ""; auto|].
    exists c, (sapp d (String e "")). split; [reflexivity|].
    cbn [all_digits] in Hd. apply andb_true_iff in Hd. apply Hd. }
  destruct Hc as [c [r [E Hc]]]. rewrite E in *.
  rewrite parse_usize_digit by exact Hc. exact Hv.
Qed.


Lemma prefix_sapp (p x : string) : String.prefix p (sapp p x) = true.
Proof.
  unfold sapp. induction p as [|c p IH]; simpl; [destruct x; reflexivity|].
  destruct (ascii_dec c c); [exact IH|contradiction].
Qed.

Lemma substring_sapp (a s : string) (k m : nat) :
  substring (String.length a + k) m (sapp a s) = substring k m s.
Proof. unfold sapp. induction a as [|c a IH]; simpl; [reflexivity|]. exact IH. Qed.

Lemma substring_prefix (a s : string) :
  substring 0 (String.length a) (sapp a s) = a.
Proof. unfold sapp. induction a as [|c a IH]; simpl; [destruct s; reflexivity|]. rewrite IH. reflexivity. Qed.

Lemma substring_all (a : string) : substring 0 (String.length a) a = a.
Proof. rewrite <- (sapp_nil_r a) at 2. rewrite substring_prefix. reflexivity. Qed.

Lemma slice_mid (a b c : string) :
  slice (sapp a (sapp b c)) (String.length a) (String.length a + String.length b) = Some b.
Proof.
  unfold slice. rewrite !sapp_length.
  replace (Nat.leb (String.length a) (String.length a + String.length b)
           && Nat.leb (String.length a + String.length b)
                      (String.length a + (String.length b + String.length c))) with true
    by (symmetry; apply andb_true_iff; split; apply Nat.leb_le; lia).
  replace (String.length a + String.length b - String.length a) with (String.length b) by lia.
  rewrite <- (Nat.add_0_r (String.length a)) at 1. rewrite substring_sapp, substring_prefix.
  reflexivity.
Qed.

Lemma strip_prefix_sapp (p x : string) : strip_prefix (sapp p x) p = Some x.
Proof.
  unfold strip_prefix, starts_with. rewrite prefix_sapp, sapp_length.
  replace (String.length p + String.length x - String.length p) with (String.length x) by lia.
  rewrite <- (Nat.add_0_r (String.length p)) at 1. rewrite substring_sapp.
  rewrite substring_all. reflexivity.
Qed.

Lemma no_char_sapp (ch : ascii) (a b : string) :
  no_char ch (sapp a b) = no_char ch a && no_char ch b.
Proof. unfold sapp. induction a as [|c a IH]; simpl; [reflexivity|]. rewrite IH, andb_assoc. reflexivity. Qed.

(** [s.find(ch)] stops at the first occurrence. *)
Lemma find_char (ch : ascii) (s r : string) :
  no_char ch s = true -> find (sapp s (String ch r)) (String ch "") = Some (String.length s).
Proof.
  unfold find, sapp. induction s as [|c s IH]; intros H; simpl.
  - destruct (ascii_dec ch ch); [destruct r; reflexivity|contradiction].
  - simpl in H. apply andb_true_iff in H as [Hc H].
    destruct (ascii_dec ch c) as [->|_]; [rewrite Ascii.eqb_refl in Hc; discriminate|].
    rewrite (IH H). reflexivity.
Qed.

Lemma no_char_digits (ch : ascii) (s : string) :
  is_digit ch = false -> all_digits s = true -> no_char ch s = true.
Proof.
  intros Hch. induction s as [|c s IH]; simpl; [reflexivity|].
  intros H. apply andb_true_iff in H as [Hc H]. rewrite (IH H).
  destruct (Ascii.eqb_spec c ch) as [->|]; [congruence|reflexivity].
Qed.

Lemma index_cons_none (p : string) (c : ascii) (s : string) :
  String.index 0 p (String c s) = None -> String.index 0 p s = None.
Proof.
  intros H. cbn [String.index] in H.
  destruct (String.prefix p (String c s)); [discriminate|].
  destruct (String.index 0 p s); [discriminate|reflexivity].
Qed.

(** A branch name as git allows it (no "..", no trailing '.') ends right
    before the first "..." of the header. *)
Lemma find_dots (b t : string) :
  find b ".." = None -> (forall p, b <> sapp p ".") ->
  find (sapp b (sapp "..." t)) "..." = Some (String.length b).
Proof.
  unfold find. induction b as [|c b IH]; intros Hdd Hend; [unfold sapp; simpl; destruct t; reflexivity|].
  assert (Hpre : String.prefix "..." (sapp (String c b) (sapp "..." t)) = false).
  { unfold sapp. cbn [String.append String.prefix].
    destruct (ascii_dec "." c) as [<-|]; [|reflexivity].
    destruct b as [|d b]; [exfalso; apply (Hend ""); reflexivity|].
    cbn [String.append String.prefix]. destruct (ascii_dec "." d) as [<-|]; [|reflexivity].
    exfalso. simpl in Hdd. destruct b; discriminate. }
  change (sapp (String c b) (sapp "..." t)) with (String c (sapp b (sapp "..." t))) in *.
  cbn [String.index]. rewrite Hpre.
  rewrite IH; [reflexivity|apply (index_cons_none _ c), Hdd|].
  intros p E. apply (Hend (String c p)). rewrite E. reflexivity.
Qed.

(** A branch with no space never looks like the special headers, which all
    have a space before any '.'. *)
Lemma prefix_no_space (P b r : string) :
  no_char " " b = true -> no_char "." P = true ->
  String.prefix P (sapp b (String "." r)) = true -> no_char " " P = true.
Proof.
  revert P. unfold sapp. induction b as [|c b IH]; intros P Hb HP Hpre.
  - destruct P as [|d P]; [reflexivity|]. cbn [String.append String.prefix] in Hpre.
    destruct (ascii_dec d ".") as [->|]; [cbn [no_char] in HP; discriminate|discriminate].
  - destruct P as [|d P]; [reflexivity|]. cbn [String.append String.prefix no_char] in Hpre, Hb, HP |- *.
    destruct (ascii_dec d c) as [<-|]; [|discriminate].
    apply andb_true_iff in Hb as [Hc Hb]. apply andb_true_iff in HP as [_ HP].
    rewrite Hc. exact (IH P Hb HP Hpre).
Qed.

Lemma list_ascii_sapp (a b : string) :
  list_ascii_of_string (sapp a b) = app (list_ascii_of_string a) (list_ascii_of_string b).
Proof. unfold sapp. induction a as [|c a IH]; simpl; [reflexivity|]. rewrite IH. reflexivity. Qed.

Lemma rev_str_rev_str (s : string) : rev_str (rev_str s) = s.
Proof.
  unfold rev_str. rewrite list_ascii_of_string_of_list_ascii, rev_involutive.
  apply string_of_list_ascii_of_string.
Qed.

Lemma rev_str_snoc (x : string) (d : ascii) :
  rev_str (sapp x (String d "")) = String d (rev_str x).
Proof.
  unfold rev_str. rewrite list_ascii_sapp. cbn [list_ascii_of_string].
  rewrite rev_app_distr. reflexivity.
Qed.

(** [trim] leaves a string alone whose ends are not whitespace. *)
Lemma trim_id (c d : ascii) (p : string) :
  is_ws c = false -> is_ws d = false ->
  trim (sapp (String c p) (String d "")) = sapp (String c p) (String d "").
Proof.
  intros Hc Hd. unfold trim.
  assert (E1 : trim_start (sapp (String c p) (String d "")) = sapp (String c p) (String d "")).
  { unfold sapp. cbn [String.append trim_start]. rewrite Hc. reflexivity. }
  rewrite E1, rev_str_snoc. cbn [trim_start]. rewrite Hd.
  rewrite <- rev_str_snoc. apply rev_str_rev_str.
Qed.

Lemma split_aux_sep (sep : ascii) (s r cur : string) :
  no_char sep s = true -> split_aux sep (sapp s (String sep r)) cur = sapp cur s :: split_aux sep r "".
Proof.
  revert cur. induction s as [|c s IH]; intros cur Hs.
  - cbn [sapp String.append split_aux]. rewrite Ascii.eqb_refl, sapp_nil_r. reflexivity.
  - cbn [no_char] in Hs. apply andb_true_iff in Hs as [Hc Hs].
    unfold sapp at 1. cbn [String.append split_aux].
    destruct (Ascii.eqb c sep); [discriminate|].
    fold (sapp s (String sep r)). rewrite (IH _ Hs), <- sapp_assoc. reflexivity.
Qed.

Lemma split_aux_end (sep : ascii) (s cur : string) :
  no_char sep s = true -> split_aux sep s cur = [sapp cur s].
Proof.
  revert cur. induction s as [|c s IH]; intros cur Hs.
  - cbn [split_aux]. rewrite sapp_nil_r. reflexivity.
  - cbn [no_char] in Hs. apply andb_true_iff in Hs as [Hc Hs].
    cbn [split_aux].
    destruct (Ascii.eqb c sep); [discriminate|].
    rewrite (IH _ Hs), <- sapp_assoc. reflexivity.
Qed.

Lemma slice_from_sapp (p x : string) : slice_from (sapp p x) (String.length p) = Some x.
Proof.
  unfold slice_from, slice. rewrite sapp_length.
  replace (Nat.leb (String.length p) (String.length p + String.length x)
           && Nat.leb (String.length p + String.length x) (String.length p + String.length x)) with true
    by (symmetry; apply andb_true_iff; split; apply Nat.leb_le; lia).
  replace (String.length p + String.length x - String.length p) with (String.length x) by lia.
  rewrite <- (Nat.add_0_r (String.length p)) at 1. rewrite substring_sapp, substring_all.
  reflexivity.
Qed.

Lemma starts_with_sapp (p x : string) : starts_with (sapp p x) p = true.
Proof. apply prefix_sapp. Qed.

Lemma digit_not_ws (e : ascii) : is_digit e = true -> is_ws e = false.
Proof. destruct e as [[] [] [] [] [] [] [] []]; try discriminate; reflexivity. Qed.

Lemma not_special (P b t : string) :
  no_char "." P = true -> no_char " " P = false -> no_char " " b = true ->
  starts_with (sapp b (sapp "..." t)) P = false.
Proof.
  intros HP HPs Hb. destruct (starts_with (sapp b (sapp "..." t)) P) eqn:E; [|reflexivity].
  pose proof (prefix_no_space P b (sapp ".." t) Hb HP E) as H. congruence.
Qed.

Lemma trim_ws_cons (c : ascii) (x : string) : is_ws c = true -> trim (String c x) = trim x.
Proof. intros H. unfold trim. cbn [trim_start]. rewrite H. reflexivity. Qed.

Lemma strip_prefix_mismatch (x y : ascii) (p s : string) :
  x <> y -> strip_prefix (String y s) (String x p) = None.
Proof.
  intros H. unfold strip_prefix, starts_with. cbn [String.prefix].
  destruct (ascii_dec x y); [contradiction|reflexivity].
Qed.

(** [parse_branch_line] reads back the header line [git status -b --porcelain]
    prints for a branch with an upstream it is ahead of and behind:
    "## <branch>...<upstream> [ahead <A>, behind <B>]", for a branch name
    git accepts (no space, no "..", no trailing '.'), an upstream with no
    bracket, and counts that fit a [usize]. *)
Theorem parse_branch_line_round_trip (b u : string) (a c : nat) :
  no_char " " b = true -> contains b ".." = false -> (forall p, b <> sapp p ".") ->
  no_char "[" u = true -> no_char "]" u = true ->
  (N.of_nat a < 2 ^ 64)%N -> (N.of_nat c < 2 ^ 64)%N ->
  Status.parse_branch_line
    (sapp "## " (sapp b (sapp "..." (sapp u (sapp " [ahead " (sapp (fmt_nat a)
       (sapp ", behind " (sapp (fmt_nat c) "]"))))))))
  = Some (b, N.of_nat a, N.of_nat c).
Proof.
  intros Hsp Hdd Hend Hu1 Hu2 Ha Hc.
  assert (Hdd' : find b ".." = None) by (unfold contains in Hdd; destruct (find b ".."); [discriminate|reflexivity]).
  pose proof (parse_fmt_nat a Ha) as PA. pose proof (parse_fmt_nat c Hc) as PC.
  destruct (fmt_nat_shape a) as [dA [eA [SA [DA EA]]]].
  destruct (fmt_nat_shape c) as [dC [eC [SC [DC EC]]]].
  assert (NA : all_digits (fmt_nat a) = true)
    by (rewrite SA, all_digits_app, DA; cbn [all_digits]; rewrite EA; reflexivity).
  assert (NC : all_digits (fmt_nat c) = true)
    by (rewrite SC, all_digits_app, DC; cbn [all_digits]; rewrite EC; reflexivity).
  set (A := fmt_nat a) in *. set (C := fmt_nat c) in *. clearbody A C.
  set (info := sapp "ahead " (sapp A (sapp ", behind " C))).
  set (ti := sapp u (sapp " [" (sapp info "]"))).
  assert (Eline : sapp "## " (sapp b (sapp "..." (sapp u (sapp " [ahead " (sapp A
                    (sapp ", behind " (sapp C "]")))))))
                  = sapp "## " (sapp b (sapp "..." ti))).
  { unfold ti, info. rewrite <- !sapp_assoc. reflexivity. }
  rewrite Eline. clear Eline.
  set (content := sapp b (sapp "..." ti)).
  assert (F1 : slice_from (sapp "## " content) 3 = Some content)
    by exact (slice_from_sapp "## " content).
  assert (F3 : find content "..." = Some (String.length b)) by exact (find_dots b ti Hdd' Hend).
  assert (F4 : slice_to content (String.length b) = Some b) by exact (slice_mid "" b (sapp "..." ti)).
  assert (F5 : slice_from content (String.length b + 3) = Some ti).
  { pose proof (slice_from_sapp (sapp b "...") ti) as H.
    rewrite sapp_length in H. rewrite <- sapp_assoc in H. exact H. }
  assert (F6 : find ti "[" = Some (String.length u + 1)).
  { pose proof (find_char "[" (sapp u " ") (sapp info "]")) as H.
    rewrite no_char_sapp, Hu1 in H. rewrite sapp_length in H.
    rewrite <- sapp_assoc in H. apply H. reflexivity. }
  assert (Hinfo : no_char "]" info = true).
  { unfold info. rewrite !no_char_sapp.
    rewrite (no_char_digits "]" A eq_refl NA), (no_char_digits "]" C eq_refl NC). reflexivity. }
  assert (F7 : find ti "]" = Some (String.length u + (2 + String.length info))).
  { pose proof (find_char "]" (sapp u (sapp " [" info)) "") as H.
    rewrite !no_char_sapp, Hu2, Hinfo in H. rewrite !sapp_length in H.
    rewrite <- !sapp_assoc in H. apply H. reflexivity. }
  assert (F8 : slice ti (String.length u + 1 + 1) (String.length u + (2 + String.length info))
               = Some info).
  { pose proof (slice_mid (sapp u " [") info "]") as H.
    rewrite sapp_length in H. rewrite <- sapp_assoc in H.
    change (String.length " [") with 2 in H.
    replace (String.length u + 1 + 1) with (String.length u + 2) by lia.
    replace (String.length u + (2 + String.length info)) with (String.length u + 2 + String.length info) by lia.
    exact H. }
  assert (F9 : split "," info = [sapp "ahead " A; sapp " behind " C]).
  { unfold split, info.
    replace (sapp "ahead " (sapp A (sapp ", behind " C)))
      with (sapp (sapp "ahead " A) (String "," (sapp " behind " C)))
      by (rewrite <- sapp_assoc; reflexivity).
    rewrite split_aux_sep.
    - rewrite split_aux_end; [reflexivity|].
      rewrite no_char_sapp, (no_char_digits "," C eq_refl NC). reflexivity.
    - rewrite no_char_sapp, (no_char_digits "," A eq_refl NA). reflexivity. }
  assert (T1 : trim (sapp "ahead " A) = sapp "ahead " A).
  { rewrite SA. replace (sapp "ahead " (sapp dA (String eA "")))
      with (sapp (String "a" (sapp "head " dA)) (String eA "")) by (rewrite sapp_assoc; reflexivity).
    apply trim_id; [reflexivity|apply digit_not_ws, EA]. }
  assert (T2 : trim (sapp " behind " C) = sapp "behind " C).
  { change (sapp " behind " C) with (String " " (sapp "behind " C)).
    rewrite trim_ws_cons by reflexivity.
    rewrite SC. replace (sapp "behind " (sapp dC (String eC "")))
      with (sapp (String "b" (sapp "ehind " dC)) (String eC "")) by (rewrite sapp_assoc; reflexivity).
    apply trim_id; [reflexivity|apply digit_not_ws, EC]. }
  assert (S2 : strip_prefix (sapp "behind " C) "ahead " = None).
  { apply strip_prefix_mismatch. discriminate. }
  unfold Status.parse_branch_line.
  rewrite starts_with_sapp. cbn [negb]. rewrite F1.
  assert (E : starts_with content "HEAD (no branch)" = false)
    by exact (not_special "HEAD (no branch)" b ti eq_refl eq_refl Hsp).
  rewrite E. clear E.
  assert (E : starts_with content "No commits yet on " = false)
    by exact (not_special "No commits yet on " b ti eq_refl eq_refl Hsp).
  rewrite E. clear E.
  assert (E : starts_with content "Initial commit on " = false)
    by exact (not_special "Initial commit on " b ti eq_refl eq_refl Hsp).
  rewrite E. clear E.
  rewrite F3, F4, F5. cbv zeta iota beta. rewrite F6, F7, F8, F9.
  cbn [fold_left]. rewrite T1, strip_prefix_sapp, PA, T2, S2, strip_prefix_sapp, PC.
  reflexivity.
Qed.

Lemma parse_branch_line_round_trip_witness :
  no_char " " "main" = true /\ contains "main" ".." = false /\
  (forall p, "main" <> sapp p ".") /\
  no_char "[" "origin/main" = true /\ no_char "]" "origin/main" = true /\
  (N.of_nat 3 < 2 ^ 64)%N /\ (N.of_nat 12 < 2 ^ 64)%N /\
  Status.parse_branch_line
    (sapp "## " (sapp "main" (sapp "..." (sapp "origin/main" (sapp " [ahead " (sapp (fmt_nat 3)
       (sapp ", behind " (sapp (fmt_nat 12) "]"))))))))
  = Some ("main", N.of_nat 3, N.of_nat 12).
Proof.
  assert (Hend : forall p, "main" <> sapp p ".").
  { intros p E.
    do 4 (destruct p as [|? p]; [discriminate E|injection E as _ E]).
    destruct p; discriminate E. }
  assert (H3 : (N.of_nat 3 < 2 ^ 64)%N) by lia.
  assert (H12 : (N.of_nat 12 < 2 ^ 64)%N) by lia.
  refine (conj eq_refl (conj eq_refl (conj Hend (conj eq_refl (conj eq_refl (conj H3 (conj H12 _))))))).
  exact (parse_branch_line_round_trip "main" "origin/main" 3 12 eq_refl eq_refl Hend eq_refl eq_refl H3 H12).
Defined.

End BranchLine.

(** ** The printed line of a fit run (fit-rust/src/runner.rs) *)
Module FitLine.
Import RStr Layout LiveLine.

(** [print_result], the repository's name given; [None] is a panic of
    [format_repo_name]. *)
Definition print_result (format : Output -> string) (name : string) (result : SpawnResult) : option string :=
  match format_repo_name name with
  | None => None
  | Some repo =>
      match result with
      | Spawned output => Some (sapp repo (sapp " " (format output)))
      | SpawnError e => Some (sapp repo (sapp " ERROR: " e))
      end
  end.

(** Every line fit prints is the bracketed name, a space, and the
    formatter's message or "ERROR: " and the I/O error: the message always
    starts after 27 characters.  Printing panics exactly when
    [format_repo_name] does. *)
Theorem fit_line_layout (format : Output -> string) (name : string) (r : SpawnResult) :
  (print_result format name r = None <-> format_repo_name name = None) /\
  (forall line, print_result format name r = Some line ->
   exists prefix,
     char_count prefix = 27 /\
     line = sapp prefix (match r with Spawned o => format o | SpawnError e => sapp "ERROR: " e end)).
Proof.
  unfold print_result. destruct (format_repo_name name) as [repo|] eqn:E.
  - split; [destruct r; split; discriminate|].
    intros line Hl. exists (sapp repo " "). split.
    + rewrite char_count_sapp. erewrite format_repo_name_some by exact E. reflexivity.
    + destruct r as [o|e]; injection Hl as <-; rewrite <- sapp_assoc_col; reflexivity.
  - split; [split; reflexivity|]. intros line Hl. discriminate Hl.
Qed.

Example print_result_panics :
  print_result (fun _ => "") "aéééééééééééé" (SpawnError "x") = None /\
  print_result (fun _ => "clean") "my-repo" (SpawnError "x")
    = Some "[my-repo                 ] ERROR: x".
Proof. vm_compute. split; reflexivity. Qed.

End FitLine.
